(** * z-radio: the broadcast registry and the WebSocket signaling relay

    A shallow embedding of [server/storage.ts] (class [MemStorage]), of the
    table declarations of [shared/schema.ts] and of [server/routes.ts]
    (the REST routes and the WebSocket handlers), followed by the
    properties of the relay that the specification talks about.

    Modelling conventions.
    - A JavaScript [Map] is an insertion-ordered association list: [get]
      returns the value of the first entry with the key, [set] overwrites
      the entry in place or appends a new one, iteration ([values()],
      [find], [filter]) follows insertion order.
    - A JavaScript [Set] of sockets is an insertion-ordered list of socket
      handles without repetition; [forEach] visits it in that order.
    - A socket object is a handle (a natural number, object identity
      being equality of handles); its fields [roomId] and [readyState]
      live in the server state, indexed by the handle.
    - JavaScript numbers that hold ids and counts are integers ([Z]), the
      timestamp of [new Date()] is an input of the operation.
    - [on_message] and [on_close] give the effect of a handler that runs
      with no other handler between its awaits, and [step] handles one
      event after the other in that way.  The same handlers are also cut
      where the source awaits ([start_message], [start_close],
      [resume]); what is proved of these pieces holds however the
      handlers interleave. *)

From Stdlib Require Import List String ZArith Bool Arith Lia.
Import ListNotations.

Local Open Scope string_scope.
Local Open Scope list_scope.
Local Open Scope Z_scope.

(** ** JavaScript [Map] as an insertion-ordered association list *)

Section JsMap.
Context {K V : Type}.
Variable eqb : K -> K -> bool.

Fixpoint map_get (m : list (K * V)) (k : K) : option V :=
  match m with
  | [] => None
  | (k', v) :: rest => if eqb k k' then Some v else map_get rest k
  end.

Definition map_has (m : list (K * V)) (k : K) : bool :=
  match map_get m k with Some _ => true | None => false end.

Fixpoint map_set (m : list (K * V)) (k : K) (v : V) : list (K * V) :=
  match m with
  | [] => [(k, v)]
  | (k', v') :: rest =>
      if eqb k k' then (k', v) :: rest else (k', v') :: map_set rest k v
  end.

Definition map_values (m : list (K * V)) : list V := map snd m.
End JsMap.

(** ** shared/schema.ts *)

(** [typeof broadcasts.$inferSelect]: every column is [notNull]. *)
Record Broadcast := mkBroadcast {
  id : Z;
  roomId : string;
  title : string;
  isActive : bool;
  listenerCount : Z;
  audioQuality : string;
  createdAt : Z
}.

(** [z.infer<typeof insertBroadcastSchema>]: the insert schema of the
    table without [id] and [createdAt]; the three columns that have a
    default are optional. *)
Record InsertBroadcast := mkInsertBroadcast {
  ins_roomId : string;
  ins_title : string;
  ins_isActive : option bool;
  ins_listenerCount : option Z;
  ins_audioQuality : option string
}.

(** [Partial<Broadcast>]: every field may be absent. *)
Record PartialBroadcast := mkPartialBroadcast {
  upd_id : option Z;
  upd_roomId : option string;
  upd_title : option string;
  upd_isActive : option bool;
  upd_listenerCount : option Z;
  upd_audioQuality : option string;
  upd_createdAt : option Z
}.

Inductive MessageType :=
  | JoinRoom | LeaveRoom | Offer | Answer | IceCandidate | RoomUpdateType.

(** [interface RoomUpdate]. *)
Record RoomUpdate := mkRoomUpdate {
  ru_listenerCount : Z;
  ru_isActive : bool
}.

(** The [data?: any] field of a message: either a payload the relay never
    looks into (kept as the text of its JSON value) or the [RoomUpdate]
    object the relay builds itself. *)
Inductive MessageData :=
  | Payload (json : string)
  | RoomUpdateData (u : RoomUpdate).

(** [interface WebSocketMessage]. *)
Record WebSocketMessage := mkMessage {
  msg_type : MessageType;
  msg_roomId : option string;
  msg_data : option MessageData;
  msg_sessionId : option string
}.

(** ** Small pieces of JavaScript semantics *)

(** [a ?? b]. *)
Definition nullish {A : Type} (a : option A) (b : A) : A :=
  match a with Some v => v | None => b end.

(** Truthiness of a string: only the empty string is falsy. *)
Definition truthy (s : string) : bool := negb (s =? "")%string.

(** ** server/storage.ts: class MemStorage

    The [listeners] map and its three operations are used by no route and
    by no handler and are left out. *)

Record MemStorage := mkMemStorage {
  broadcasts : list (Z * Broadcast);
  currentBroadcastId : Z
}.

(** The constructor. *)
Definition newMemStorage : MemStorage := mkMemStorage [] 1.

Definition createBroadcast (st : MemStorage) (insertBroadcast : InsertBroadcast)
    (now : Z) : Broadcast * MemStorage :=
  let id := currentBroadcastId st in
  let broadcast :=
    {| id := id;
       roomId := ins_roomId insertBroadcast;
       title := ins_title insertBroadcast;
       isActive := nullish (ins_isActive insertBroadcast) true;
       listenerCount := nullish (ins_listenerCount insertBroadcast) 0;
       audioQuality := nullish (ins_audioQuality insertBroadcast) "high";
       createdAt := now |} in
  (broadcast,
   {| broadcasts := map_set Z.eqb (broadcasts st) id broadcast;
      currentBroadcastId := id + 1 |}).

Definition getBroadcast (st : MemStorage) (id : Z) : option Broadcast :=
  map_get Z.eqb (broadcasts st) id.

Definition getBroadcastByRoomId (st : MemStorage) (r : string) : option Broadcast :=
  find (fun broadcast => (roomId broadcast =? r)%string)
       (map_values (broadcasts st)).

(** [{ ...broadcast, ...updates }]. *)
Definition spread (broadcast : Broadcast) (updates : PartialBroadcast) : Broadcast :=
  {| id := nullish (upd_id updates) (id broadcast);
     roomId := nullish (upd_roomId updates) (roomId broadcast);
     title := nullish (upd_title updates) (title broadcast);
     isActive := nullish (upd_isActive updates) (isActive broadcast);
     listenerCount := nullish (upd_listenerCount updates) (listenerCount broadcast);
     audioQuality := nullish (upd_audioQuality updates) (audioQuality broadcast);
     createdAt := nullish (upd_createdAt updates) (createdAt broadcast) |}.

Definition updateBroadcast (st : MemStorage) (id : Z) (updates : PartialBroadcast)
    : option Broadcast * MemStorage :=
  match map_get Z.eqb (broadcasts st) id with
  | None => (None, st)
  | Some broadcast =>
      let updated := spread broadcast updates in
      (Some updated,
       {| broadcasts := map_set Z.eqb (broadcasts st) id updated;
          currentBroadcastId := currentBroadcastId st |})
  end.


Definition with_listenerCount (broadcast : Broadcast) (count : Z) : Broadcast :=
  {| id := id broadcast;
     roomId := roomId broadcast;
     title := title broadcast;
     isActive := isActive broadcast;
     listenerCount := count;
     audioQuality := audioQuality broadcast;
     createdAt := createdAt broadcast |}.

(** The source assigns [listenerCount] in the object it got from the map
    and puts the object back under the same key.  No object is the value
    of two keys ([createBroadcast] and [updateBroadcast] store objects
    they have just built), so replacing the value of the key is the whole
    effect. *)
Definition updateListenerCount (st : MemStorage) (broadcastId : Z) (count : Z)
    : MemStorage :=
  match map_get Z.eqb (broadcasts st) broadcastId with
  | Some broadcast =>
      {| broadcasts :=
           map_set Z.eqb (broadcasts st) broadcastId
                   (with_listenerCount broadcast count);
         currentBroadcastId := currentBroadcastId st |}
  | None => st
  end.

(** ** server/routes.ts: the REST routes *)

(** What a route answers: [res.json(broadcast)] or
    [res.status(n).json({ error })]. *)
Inductive Response :=
  | Json (broadcast : Broadcast)
  | Failure (status : Z) (error : string).

(** [app.post("/api/broadcasts")].  The body is given as the result of
    [insertBroadcastSchema.parse(req.body)]: [None] when [parse] throws. *)
Definition post_broadcasts (st : MemStorage) (body : option InsertBroadcast)
    (now : Z) : Response * MemStorage :=
  match body with
  | Some broadcastData =>
      let (broadcast, st') := createBroadcast st broadcastData now in
      (Json broadcast, st')
  | None => (Failure 400 "Invalid broadcast data", st)
  end.

(** [app.get("/api/broadcasts/room/:roomId")]. *)
Definition get_broadcast_by_room (st : MemStorage) (r : string) : Response :=
  match getBroadcastByRoomId st r with
  | Some broadcast => Json broadcast
  | None => Failure 404 "Broadcast not found"
  end.

(** [app.patch("/api/broadcasts/:id")].  The path parameter is given as
    the result of [parseInt]: [None] stands for [NaN], which is the key of
    no entry.  The body goes to [updateBroadcast] as it arrives. *)
Definition patch_broadcast (st : MemStorage) (idParam : option Z)
    (updates : PartialBroadcast) : Response * MemStorage :=
  match idParam with
  | Some id =>
      match updateBroadcast st id updates with
      | (Some broadcast, st') => (Json broadcast, st')
      | (None, st') => (Failure 404 "Broadcast not found", st')
      end
  | None => (Failure 404 "Broadcast not found", st)
  end.

(** ** server/routes.ts: the WebSocket relay *)

(** A socket object, by identity. *)
Definition Handle := nat.

Inductive ReadyState := CONNECTING | OPEN | CLOSING | CLOSED.

Definition is_open (st : ReadyState) : bool :=
  match st with OPEN => true | _ => false end.

(** A [Set<WebSocketWithSession>]. *)
Definition set_has (l : list Handle) (ws : Handle) : bool :=
  existsb (Nat.eqb ws) l.

Definition set_add (l : list Handle) (ws : Handle) : list Handle :=
  if set_has l ws then l else l ++ [ws].

Definition set_delete (l : list Handle) (ws : Handle) : list Handle :=
  filter (fun client => negb (Nat.eqb client ws)) l.

(** The state the closures of [registerRoutes] share: the [storage]
    singleton, the [rooms] map, the fields of the socket objects, and the
    texts handed to [client.send], oldest first.  A sent text is kept as
    the message value whose [JSON.stringify] it is. *)
Record Server := mkServer {
  storage : MemStorage;
  rooms : list (string * list Handle);
  ws_roomId : Handle -> option string;
  ws_readyState : Handle -> ReadyState;
  sent : list (Handle * WebSocketMessage)
}.

Definition initial : Server :=
  mkServer newMemStorage [] (fun _ => None) (fun _ => CONNECTING) [].

Definition set_storage (s : Server) (st : MemStorage) : Server :=
  mkServer st (rooms s) (ws_roomId s) (ws_readyState s) (sent s).

Definition set_rooms (s : Server) (m : list (string * list Handle)) : Server :=
  mkServer (storage s) m (ws_roomId s) (ws_readyState s) (sent s).

Definition set_ws_roomId (s : Server) (ws : Handle) (r : string) : Server :=
  mkServer (storage s) (rooms s)
           (fun h => if Nat.eqb h ws then Some r else ws_roomId s h)
           (ws_readyState s) (sent s).

Definition set_ws_readyState (s : Server) (ws : Handle) (st : ReadyState) : Server :=
  mkServer (storage s) (rooms s) (ws_roomId s)
           (fun h => if Nat.eqb h ws then st else ws_readyState s h)
           (sent s).

(** [client.send(messageStr)]. *)
Definition send (s : Server) (client : Handle) (messageStr : WebSocketMessage)
    : Server :=
  mkServer (storage s) (rooms s) (ws_roomId s) (ws_readyState s)
           (sent s ++ [(client, messageStr)]).

(** [rooms.get(roomId)!]: the set of the room, empty when the room has no
    entry (every use in the source comes after [has] or [set]). *)
Definition room_clients (s : Server) (r : string) : list Handle :=
  nullish (map_get String.eqb (rooms s) r) [].

(** [client !== excludeWs]; nothing is excluded when the argument is
    omitted. *)
Definition differs (client : Handle) (excludeWs : option Handle) : bool :=
  match excludeWs with
  | Some ws => negb (Nat.eqb client ws)
  | None => true
  end.

Definition broadcastToRoom (s : Server) (r : string) (message : WebSocketMessage)
    (excludeWs : option Handle) : Server :=
  match map_get String.eqb (rooms s) r with
  | None => s
  | Some roomClients =>
      let messageStr := message in
      fold_left
        (fun acc client =>
           if differs client excludeWs && is_open (ws_readyState acc client)
           then send acc client messageStr
           else acc)
        roomClients s
  end.

Definition room_update (count : Z) (active : bool) : WebSocketMessage :=
  mkMessage RoomUpdateType None
            (Some (RoomUpdateData (mkRoomUpdate count active))) None.

(** [rooms.get(roomId)!.size]. *)
Definition room_size (s : Server) (r : string) : Z :=
  Z.of_nat (List.length (room_clients s r)).

(** The body of [ws.on('message')] after [JSON.parse].  A text that does
    not parse, or whose [type] is none of the six, changes nothing and is
    not an event of the model; neither is the [sessionId] the connection
    handler draws with [Math.random], which nothing reads. *)
Definition on_message (s : Server) (ws : Handle) (data : WebSocketMessage) : Server :=
  match msg_type data with
  | JoinRoom =>
      match msg_roomId data with
      | Some r =>
          if truthy r then
            let s := set_ws_roomId s ws r in
            let s := if negb (map_has String.eqb (rooms s) r)
                     then set_rooms s (map_set String.eqb (rooms s) r [])
                     else s in
            let s := set_rooms s (map_set String.eqb (rooms s) r
                                          (set_add (room_clients s r) ws)) in
            match getBroadcastByRoomId (storage s) r with
            | Some broadcast =>
                let listenerCount := room_size s r in
                let s := set_storage s
                           (updateListenerCount (storage s) (id broadcast)
                                                listenerCount) in
                broadcastToRoom s r
                  (room_update listenerCount (isActive broadcast)) None
            | None => s
            end
          else s
      | None => s
      end
  | LeaveRoom =>
      match ws_roomId s ws with
      | Some r =>
          if truthy r && map_has String.eqb (rooms s) r then
            let s := set_rooms s (map_set String.eqb (rooms s) r
                                          (set_delete (room_clients s r) ws)) in
            match getBroadcastByRoomId (storage s) r with
            | Some broadcast =>
                let listenerCount := room_size s r in
                let s := set_storage s
                           (updateListenerCount (storage s) (id broadcast)
                                                listenerCount) in
                broadcastToRoom s r
                  (room_update listenerCount (isActive broadcast)) None
            | None => s
            end
          else s
      | None => s
      end
  | Offer | Answer | IceCandidate =>
      match ws_roomId s ws with
      | Some r => if truthy r then broadcastToRoom s r data (Some ws) else s
      | None => s
      end
  | RoomUpdateType => s
  end.

(** The body of [ws.on('close')]. *)
Definition on_close (s : Server) (ws : Handle) : Server :=
  match ws_roomId s ws with
  | Some r =>
      if truthy r && map_has String.eqb (rooms s) r then
        let s := set_rooms s (map_set String.eqb (rooms s) r
                                      (set_delete (room_clients s r) ws)) in
        match getBroadcastByRoomId (storage s) r with
        | Some broadcast =>
            let listenerCount := room_size s r in
            let s := set_storage s
                       (updateListenerCount (storage s) (id broadcast)
                                            listenerCount) in
            broadcastToRoom s r
              (room_update listenerCount (isActive broadcast)) None
        | None => s
        end
      else s
  | None => s
  end.

(** ** The server as a transition system

    What can happen to the server: a REST request, and for a socket the
    events of the transport.  A socket is reported once by
    [wss.on('connection')], open; it emits [message] while it is open; its
    [readyState] leaves [OPEN] when the closing handshake starts; it
    emits [close] once, with [readyState] [CLOSED]. *)
Inductive Event :=
  | HttpPost (body : option InsertBroadcast) (now : Z)
  | HttpPatch (idParam : option Z) (updates : PartialBroadcast)
  | WsConnection (ws : Handle)
  | WsMessage (ws : Handle) (data : WebSocketMessage)
  | WsClosing (ws : Handle)
  | WsClose (ws : Handle).

Definition step (s : Server) (e : Event) : Server :=
  match e with
  | HttpPost body now => set_storage s (snd (post_broadcasts (storage s) body now))
  | HttpPatch idParam updates =>
      set_storage s (snd (patch_broadcast (storage s) idParam updates))
  | WsConnection ws =>
      match ws_readyState s ws with
      | CONNECTING => set_ws_readyState s ws OPEN
      | _ => s
      end
  | WsMessage ws data =>
      if is_open (ws_readyState s ws) then on_message s ws data else s
  | WsClosing ws =>
      if is_open (ws_readyState s ws) then set_ws_readyState s ws CLOSING else s
  | WsClose ws =>
      match ws_readyState s ws with
      | CLOSED => s
      | _ => on_close (set_ws_readyState s ws CLOSED) ws
      end
  end.

Definition run (s : Server) (es : list Event) : Server := fold_left step es s.

Inductive reachable : Server -> Prop :=
  | reachable_initial : reachable initial
  | reachable_step s e : reachable s -> reachable (step s e).

(** Messages as the clients build them. *)
Definition join_room (r : string) : WebSocketMessage :=
  mkMessage JoinRoom (Some r) None None.

Definition leave_room (r : string) : WebSocketMessage :=
  mkMessage LeaveRoom (Some r) None None.

Definition signaling (t : MessageType) : bool :=
  match t with
  | Offer | Answer | IceCandidate => true
  | _ => false
  end.

(** ** Definitions used to state the properties *)

(** The members of room [r] that [broadcastToRoom] hands the text to: the
    ones that are not the excluded socket and whose socket is open. *)
Definition recipients (s : Server) (r : string) (excludeWs : option Handle)
    : list Handle :=
  filter (fun client => differs client excludeWs && is_open (ws_readyState s client))
         (room_clients s r).

(** One text, [message], for each socket of [l]. *)
Definition deliveries (message : WebSocketMessage) (l : list Handle)
    : list (Handle * WebSocketMessage) :=
  map (fun client => (client, message)) l.

(** [rooms] once [ws] is added to the set of room [r]. *)
Definition joined_rooms (s : Server) (ws : Handle) (r : string) :=
  map_set String.eqb (rooms s) r (set_add (room_clients s r) ws).

(** [rooms] once [ws] is deleted from the set of room [r]. *)
Definition left_rooms (s : Server) (ws : Handle) (r : string) :=
  map_set String.eqb (rooms s) r (set_delete (room_clients s r) ws).

(** The tail the three handlers share: look the broadcast of room [r]
    up, store the size of the room as its [listenerCount], and send
    [room-update] to the room. *)
Definition announce (s : Server) (r : string) : Server :=
  match getBroadcastByRoomId (storage s) r with
  | Some broadcast =>
      let listenerCount := room_size s r in
      broadcastToRoom
        (set_storage s (updateListenerCount (storage s) (id broadcast) listenerCount))
        r (room_update listenerCount (isActive broadcast)) None
  | None => s
  end.

(** The [roomId] of a socket, once set, is a non-empty string that has an
    entry in [rooms] (entries are never removed). *)
Definition sessions_ok (s : Server) : Prop :=
  forall ws r, ws_roomId s ws = Some r ->
    truthy r = true /\ map_has String.eqb (rooms s) r = true.

(** The set of a room holds no socket twice. *)
Definition rooms_ok (s : Server) : Prop :=
  forall r l, map_get String.eqb (rooms s) r = Some l -> NoDup l.

Definition relay_ok (s : Server) : Prop := sessions_ok s /\ rooms_ok s.

(** The keys of [broadcasts] are distinct, every record is stored under
    its own [id], and the counter is above every key. *)
Definition registry_ok (st : MemStorage) : Prop :=
  NoDup (map fst (broadcasts st)) /\
  forall k b, In (k, b) (broadcasts st) -> id b = k /\ k < currentBroadcastId st.

(** ** Scenarios *)

(** A create request with the two required fields only. *)
Definition abc123_request : InsertBroadcast :=
  mkInsertBroadcast "abc123" "Morning show" None None None.

(** A create request that also carries [isActive] and [listenerCount]. *)
Definition stopped_request : InsertBroadcast :=
  mkInsertBroadcast "abc123" "Morning show" (Some false) (Some 5) None.

(** The PATCH body [{ id: 2 }]. *)
Definition id_update : PartialBroadcast :=
  mkPartialBroadcast (Some 2) None None None None None None.

(** The registry of a fresh server after one create request. *)
Definition after_first_post : MemStorage :=
  snd (post_broadcasts newMemStorage (Some abc123_request) 0).

(** Two signaling messages. *)
Definition sdp_offer : WebSocketMessage :=
  mkMessage Offer (Some "abc123") (Some (Payload "{sdp:v=0}")) None.

Definition ice : WebSocketMessage :=
  mkMessage IceCandidate None (Some (Payload "{candidate:0}")) None.

(** A broadcast for room [abc123]; the broadcaster [1] has joined, the
    listener [2] is connected. *)
Definition once_joined : Server :=
  run initial
    [HttpPost (Some abc123_request) 0;
     WsConnection 1%nat; WsMessage 1%nat (join_room "abc123");
     WsConnection 2%nat].

(** The same, with the listener [2] joined as well. *)
Definition two_joined : Server :=
  run initial
    [HttpPost (Some abc123_request) 0;
     WsConnection 1%nat; WsMessage 1%nat (join_room "abc123");
     WsConnection 2%nat; WsMessage 2%nat (join_room "abc123")].

(** Two open connections, [1] joined to room [lobby], for which no
    broadcast was ever created. *)
Definition lobby : Server :=
  run initial
    [HttpPost (Some abc123_request) 0;
     WsConnection 1%nat; WsMessage 1%nat (join_room "lobby");
     WsConnection 2%nat].

(** The id of broadcast 1 is overwritten by a PATCH, then [1] joins. *)
Definition patched_then_joined : Server :=
  run initial
    [HttpPost (Some abc123_request) 0;
     HttpPatch (Some 1) id_update;
     WsConnection 1%nat; WsMessage 1%nat (join_room "abc123")].

(** One connection joins room [A] and then room [B]. *)
Definition joined_twice : Server :=
  run initial
    [WsConnection 1%nat;
     WsMessage 1%nat (join_room "A"); WsMessage 1%nat (join_room "B")].

(** ** server/storage.ts: the rest of MemStorage *)

(** [Map.prototype.delete]: the map without the entry of the key. *)
Definition map_delete {K V : Type} (eqb : K -> K -> bool) (m : list (K * V))
    (k : K) : list (K * V) :=
  filter (fun entry => negb (eqb k (fst entry))) m.

(** [deleteBroadcast]: what [Map.prototype.delete] returns is whether the
    key had an entry. *)
Definition deleteBroadcast (st : MemStorage) (id : Z) : bool * MemStorage :=
  (map_has Z.eqb (broadcasts st) id,
   {| broadcasts := map_delete Z.eqb (broadcasts st) id;
      currentBroadcastId := currentBroadcastId st |}).

(** [typeof listeners.$inferSelect]: [broadcastId] is the one nullable
    column. *)
Record Listener := mkListener {
  l_id : Z;
  l_broadcastId : option Z;
  l_sessionId : string;
  l_joinedAt : Z
}.

(** [z.infer<typeof insertListenerSchema>]: [broadcastId] may be absent
    or [null]; both are [None]. *)
Record InsertListener := mkInsertListener {
  il_broadcastId : option Z;
  il_sessionId : string
}.

(** The other half of the fields of [MemStorage]: the [listeners] map
    and its counter.  The operations on listeners read and write these
    two fields only, and the operations on broadcasts never touch them. *)
Record ListenerStore := mkListenerStore {
  listeners : list (Z * Listener);
  currentListenerId : Z
}.

(** The constructor, for these two fields. *)
Definition newListenerStore : ListenerStore := mkListenerStore [] 1.

Definition addListener (ls : ListenerStore) (insertListener : InsertListener)
    (now : Z) : Listener * ListenerStore :=
  let id := currentListenerId ls in
  let listener :=
    {| l_id := id;
       l_broadcastId := il_broadcastId insertListener;
       l_sessionId := il_sessionId insertListener;
       l_joinedAt := now |} in
  (listener,
   {| listeners := map_set Z.eqb (listeners ls) id listener;
      currentListenerId := id + 1 |}).

Definition removeListener (ls : ListenerStore) (sessionId : string)
    : bool * ListenerStore :=
  match find (fun l => (l_sessionId l =? sessionId)%string)
             (map_values (listeners ls)) with
  | None => (false, ls)
  | Some listener =>
      (map_has Z.eqb (listeners ls) (l_id listener),
       {| listeners := map_delete Z.eqb (listeners ls) (l_id listener);
          currentListenerId := currentListenerId ls |})
  end.

(** [listener.broadcastId === broadcastId]: [null] equals no number. *)
Definition getListenersByBroadcast (ls : ListenerStore) (broadcastId : Z)
    : list Listener :=
  filter (fun listener =>
            match l_broadcastId listener with
            | Some b => b =? broadcastId
            | None => false
            end)
         (map_values (listeners ls)).

(** ** server/routes.ts: the statistics route *)


(** ** server/routes.ts: the handlers at their awaits

    [on_message] and [on_close] give the effect of a handler that runs
    with no other handler between its awaits.  Here the same handlers
    are cut where the source awaits: [start_message] and [start_close]
    run a handler up to its first [await], [resume] runs a suspended
    handler from one [await] to the next. *)

(** A handler suspended at an [await], with the local variables it reads
    afterwards: the socket, the [broadcast] it looked up and, at the
    second [await], the [listenerCount] it computed.  The join-room case
    takes the room from the message ([data.roomId], kept in [joined]);
    the leave-room case and the close handler read [ws.roomId] again
    each time they name the room, and have [None] for [joined].  The
    fields [id] and [isActive] of the looked-up object are never
    assigned by the storage, so the record read at the lookup gives
    them. *)
Inductive Suspended :=
  | AwaitLookup (ws : Handle) (joined : option string)
                (broadcast : option Broadcast)
  | AwaitUpdate (ws : Handle) (joined : option string)
                (broadcast : Broadcast) (listenerCount : Z).

(** The room a suspended handler names when it goes on. *)
Definition room_read (s : Server) (ws : Handle) (joined : option string)
    : option string :=
  match joined with
  | Some r => Some r
  | None => ws_roomId s ws
  end.

(** [ws.on('message')] up to the first [await]: the membership is
    written and [getBroadcastByRoomId] has run.  The signaling cases
    have no [await] and end here. *)
Definition start_message (s : Server) (ws : Handle) (data : WebSocketMessage)
    : Server * option Suspended :=
  match msg_type data with
  | JoinRoom =>
      match msg_roomId data with
      | Some r =>
          if truthy r then
            let s := set_ws_roomId s ws r in
            let s := if negb (map_has String.eqb (rooms s) r)
                     then set_rooms s (map_set String.eqb (rooms s) r [])
                     else s in
            let s := set_rooms s (map_set String.eqb (rooms s) r
                                          (set_add (room_clients s r) ws)) in
            (s, Some (AwaitLookup ws (Some r)
                                  (getBroadcastByRoomId (storage s) r)))
          else (s, None)
      | None => (s, None)
      end
  | LeaveRoom =>
      match ws_roomId s ws with
      | Some r =>
          if truthy r && map_has String.eqb (rooms s) r then
            let s := set_rooms s (map_set String.eqb (rooms s) r
                                          (set_delete (room_clients s r) ws)) in
            (s, Some (AwaitLookup ws None (getBroadcastByRoomId (storage s) r)))
          else (s, None)
      | None => (s, None)
      end
  | Offer | Answer | IceCandidate =>
      match ws_roomId s ws with
      | Some r =>
          if truthy r then (broadcastToRoom s r data (Some ws), None)
          else (s, None)
      | None => (s, None)
      end
  | RoomUpdateType => (s, None)
  end.

(** [ws.on('close')] up to the first [await]. *)
Definition start_close (s : Server) (ws : Handle) : Server * option Suspended :=
  match ws_roomId s ws with
  | Some r =>
      if truthy r && map_has String.eqb (rooms s) r then
        let s := set_rooms s (map_set String.eqb (rooms s) r
                                      (set_delete (room_clients s r) ws)) in
        (s, Some (AwaitLookup ws None (getBroadcastByRoomId (storage s) r)))
      else (s, None)
  | None => (s, None)
  end.

(** A suspended handler goes on to its next [await] or to its end: after
    the lookup, [if (broadcast)], the size of the room and the call of
    [updateListenerCount]; after that, [broadcastToRoom]. *)
Definition resume (s : Server) (k : Suspended) : Server * option Suspended :=
  match k with
  | AwaitLookup ws joined (Some broadcast) =>
      match room_read s ws joined with
      | Some r =>
          let listenerCount := room_size s r in
          (set_storage s
             (updateListenerCount (storage s) (id broadcast) listenerCount),
           Some (AwaitUpdate ws joined broadcast listenerCount))
      | None => (s, None)
      end
  | AwaitLookup ws joined None => (s, None)
  | AwaitUpdate ws joined broadcast listenerCount =>
      match room_read s ws joined with
      | Some r =>
          (broadcastToRoom s r
             (room_update listenerCount (isActive broadcast)) None,
           None)
      | None => (s, None)
      end
  end.

(** A handler has at most two awaits: it is over after two [resume]. *)
Definition finish (started : Server * option Suspended) : Server :=
  match started with
  | (s, None) => s
  | (s, Some k) =>
      match resume s k with
      | (s1, None) => s1
      | (s1, Some k1) => fst (resume s1 k1)
      end
  end.

(** A message handled with nothing else running between its awaits. *)
Definition message_alone (s : Server) (ws : Handle) (data : WebSocketMessage)
    : Server :=
  finish (start_message s ws data).

(** A closure handled with nothing else running between its awaits. *)
Definition close_alone (s : Server) (ws : Handle) : Server :=
  finish (start_close s ws).

(** ** More definitions used to state properties *)

(** The keys of [listeners] are distinct, every listener is stored under
    its own id, and the counter is above every key. *)
Definition listeners_ok (ls : ListenerStore) : Prop :=
  NoDup (map fst (listeners ls)) /\
  forall k l, In (k, l) (listeners ls) -> l_id l = k /\ k < currentListenerId ls.

(** A record without its [listenerCount]. *)
Definition without_count (b : Broadcast) : Broadcast := with_listenerCount b 0.

(** Every member of a room has that room as its session room, and a
    socket that has closed is in no room. *)
Definition members_ok (s : Server) : Prop :=
  (forall ws r, In ws (room_clients s r) -> ws_roomId s ws = Some r) /\
  (forall ws r, ws_readyState s ws = CLOSED -> ~ In ws (room_clients s r)).

(** A connection that joins a room, leaves it, joins another one and
    closes. *)
Definition room_hopper : list Event :=
  [HttpPost (Some (mkInsertBroadcast "abc123" "Morning show" None None None)) 0;
   WsConnection 1%nat; WsMessage 1%nat (join_room "abc123");
   WsConnection 2%nat; WsMessage 2%nat (join_room "abc123");
   WsMessage 2%nat (leave_room "abc123");
   WsMessage 2%nat (join_room "lobby");
   WsClose 2%nat].

(** A broadcast is created and stopped by a PATCH without [id] field,
    and a connection opens. *)
Definition stopped_broadcast : list Event :=
  [HttpPost (Some (mkInsertBroadcast "abc123" "Morning show" None None None)) 0;
   HttpPatch (Some 1) (mkPartialBroadcast None None None (Some false) None None None);
   WsConnection 1%nat].

(** The counter is above every key of [broadcasts]. *)
Definition keys_below (st : MemStorage) : Prop :=
  forall k b, In (k, b) (broadcasts st) -> k < currentBroadcastId st.



(** The room a message is about, for the handler. *)
Definition room_of_message (s : Server) (ws : Handle) (data : WebSocketMessage)
    : option string :=
  match msg_type data with
  | JoinRoom =>
      match msg_roomId data with
      | Some r => if truthy r then Some r else None
      | None => None
      end
  | RoomUpdateType => None
  | _ => ws_roomId s ws
  end.

(** The room an event is about: the room named by a [join-room] that the
    handler accepts, the session room of the socket for [leave-room], for
    a signaling message and for [close]; no room for anything else, nor
    for an event the transport cannot produce (a message of a socket that
    is not open, a second [close]). *)
Definition room_of_event (s : Server) (e : Event) : option string :=
  match e with
  | WsMessage ws data =>
      if is_open (ws_readyState s ws) then room_of_message s ws data else None
  | WsClose ws =>
      match ws_readyState s ws with
      | CLOSED => None
      | _ => ws_roomId s ws
      end
  | _ => None
  end.


(** [ws] is in the set of a room other than [r]. *)
Definition in_other_room (s : Server) (ws : Handle) (r : string) : bool :=
  existsb (fun entry => negb (fst entry =? r)%string && set_has (snd entry) ws)
          (rooms s).

(** The event is not a [join-room] of a socket that is in the set of
    another room. *)
Definition exclusive_join (s : Server) (e : Event) : bool :=
  match e with
  | WsMessage ws data =>
      match msg_type data, msg_roomId data with
      | JoinRoom, Some r => negb (in_other_room s ws r)
      | _, _ => true
      end
  | _ => true
  end.

(** Every event of the list is an [exclusive_join] in the state in which
    it arrives. *)
Fixpoint exclusive_joins (s : Server) (es : list Event) : bool :=
  match es with
  | [] => true
  | e :: rest => exclusive_join s e && exclusive_joins (step s e) rest
  end.

(** * Properties *)

(** ** Facts about the [Map] model *)

Section JsMapFacts.
Context {K V : Type}.
Variable eqb : K -> K -> bool.
Hypothesis eqb_eq : forall a b, eqb a b = true <-> a = b.

Lemma eqb_same k : eqb k k = true.
Proof. apply eqb_eq; reflexivity. Qed.

Lemma eqb_diff a b : a <> b -> eqb a b = false.
Proof.
  intros Hab. destruct (eqb a b) eqn:E; [|reflexivity].
  apply eqb_eq in E. contradiction.
Qed.

Lemma map_get_set_same (m : list (K * V)) k v :
  map_get eqb (map_set eqb m k v) k = Some v.
Proof.
  induction m as [|[k' v'] rest IH]; simpl.
  - rewrite eqb_same. reflexivity.
  - destruct (eqb k k') eqn:E; simpl; rewrite E; auto.
Qed.

Lemma map_get_set_other (m : list (K * V)) k v k' :
  k' <> k -> map_get eqb (map_set eqb m k v) k' = map_get eqb m k'.
Proof.
  intros Hk. induction m as [|[k0 v0] rest IH]; simpl.
  - rewrite (eqb_diff _ _ Hk). reflexivity.
  - destruct (eqb k k0) eqn:E; simpl.
    + apply eqb_eq in E. subst k0.
      rewrite (eqb_diff _ _ Hk). reflexivity.
    + rewrite IH. reflexivity.
Qed.

Lemma map_set_set (m : list (K * V)) k v w :
  map_set eqb (map_set eqb m k v) k w = map_set eqb m k w.
Proof.
  induction m as [|[k' v'] rest IH]; simpl.
  - rewrite eqb_same. reflexivity.
  - destruct (eqb k k') eqn:E; simpl; rewrite E; [reflexivity|].
    rewrite IH. reflexivity.
Qed.

Lemma map_has_set_same (m : list (K * V)) k v :
  map_has eqb (map_set eqb m k v) k = true.
Proof. unfold map_has. rewrite map_get_set_same. reflexivity. Qed.

Lemma map_has_set (m : list (K * V)) k v k' :
  map_has eqb m k' = true -> map_has eqb (map_set eqb m k v) k' = true.
Proof.
  unfold map_has. intros H.
  destruct (eqb k' k) eqn:E.
  - apply eqb_eq in E. subst. rewrite map_get_set_same. reflexivity.
  - rewrite map_get_set_other; [exact H|].
    intros ->. rewrite eqb_same in E. discriminate.
Qed.

Lemma map_set_keys (m : list (K * V)) k v :
  map_has eqb m k = true -> map fst (map_set eqb m k v) = map fst m.
Proof.
  unfold map_has. induction m as [|[k' v'] rest IH]; simpl; [discriminate|].
  destruct (eqb k k') eqn:E; simpl; [reflexivity|].
  intros H. rewrite (IH H). reflexivity.
Qed.

Lemma map_set_keys_fresh (m : list (K * V)) k v :
  map_has eqb m k = false -> map fst (map_set eqb m k v) = map fst m ++ [k].
Proof.
  unfold map_has. induction m as [|[k' v'] rest IH]; simpl; [reflexivity|].
  destruct (eqb k k') eqn:E; simpl; [discriminate|].
  intros H. rewrite (IH H). reflexivity.
Qed.

Lemma map_get_In (m : list (K * V)) k v :
  map_get eqb m k = Some v -> In (k, v) m.
Proof.
  induction m as [|[k' v'] rest IH]; simpl; [discriminate|].
  destruct (eqb k k') eqn:E.
  - intros [= ->]. apply eqb_eq in E. subst. left; reflexivity.
  - intros H. right. exact (IH H).
Qed.

Lemma In_map_set (m : list (K * V)) k v k' v' :
  In (k', v') (map_set eqb m k v) -> (k' = k /\ v' = v) \/ In (k', v') m.
Proof.
  induction m as [|[k0 v0] rest IH]; simpl.
  - intros [[= <- <-]|[]]. left; split; reflexivity.
  - destruct (eqb k k0) eqn:E; simpl.
    + apply eqb_eq in E. subst k0.
      intros [[= <- <-]|Hin]; [left; split; reflexivity|right; right; exact Hin].
    + intros [Hin|Hin]; [right; left; exact Hin|].
      destruct (IH Hin) as [H|H]; [left; exact H|right; right; exact H].
Qed.
End JsMapFacts.

(** ** Facts about the [Set] model *)

Lemma set_has_In l ws : set_has l ws = true <-> In ws l.
Proof.
  unfold set_has. rewrite existsb_exists. split.
  - intros [x [Hin Hx]]. apply Nat.eqb_eq in Hx. subst. exact Hin.
  - intros Hin. exists ws. split; [exact Hin|apply Nat.eqb_refl].
Qed.

Lemma set_add_In l ws c : In c (set_add l ws) <-> c = ws \/ In c l.
Proof.
  unfold set_add. destruct (set_has l ws) eqn:E.
  - apply set_has_In in E. split; [auto|]. intros [->|H]; assumption.
  - rewrite in_app_iff. simpl. split.
    + intros [H|[H|[]]]; [right; exact H|left; symmetry; exact H].
    + intros [H|H]; [right; left; symmetry; exact H|left; exact H].
Qed.

Lemma set_add_NoDup l ws : NoDup l -> NoDup (set_add l ws).
Proof.
  intros Hnd. unfold set_add. destruct (set_has l ws) eqn:E; [exact Hnd|].
  assert (Hnot : ~ In ws l).
  { intros Hin. apply set_has_In in Hin. congruence. }
  clear E. induction Hnd as [|x l Hx Hnd IH]; simpl.
  - constructor; [intros []|constructor].
  - constructor.
    + rewrite in_app_iff. simpl. intros [H|[H|[]]].
      * exact (Hx H).
      * apply Hnot. left. symmetry. exact H.
    + apply IH. intros H. apply Hnot. right. exact H.
Qed.

Lemma set_add_member l ws : In ws l -> set_add l ws = l.
Proof.
  intros Hin. unfold set_add. apply set_has_In in Hin. rewrite Hin. reflexivity.
Qed.

Lemma set_add_idem l ws : set_add (set_add l ws) ws = set_add l ws.
Proof. apply set_add_member. apply set_add_In. left; reflexivity. Qed.

Lemma set_delete_In l ws c : In c (set_delete l ws) <-> In c l /\ c <> ws.
Proof.
  unfold set_delete. rewrite filter_In. split.
  - intros [Hin Hc]. split; [exact Hin|].
    intros ->. rewrite Nat.eqb_refl in Hc. discriminate.
  - intros [Hin Hc]. split; [exact Hin|].
    apply Nat.eqb_neq in Hc. rewrite Hc. reflexivity.
Qed.

Lemma set_delete_NoDup l ws : NoDup l -> NoDup (set_delete l ws).
Proof. intros H. unfold set_delete. apply NoDup_filter. exact H. Qed.

(** ** What [broadcastToRoom] sends *)

Lemma forEach_send message excludeWs (l : list Handle) : forall s,
  fold_left
    (fun acc client =>
       if differs client excludeWs && is_open (ws_readyState acc client)
       then send acc client message else acc) l s
  = mkServer (storage s) (rooms s) (ws_roomId s) (ws_readyState s)
      (sent s ++ deliveries message
         (filter (fun client =>
                    differs client excludeWs && is_open (ws_readyState s client)) l)).
Proof.
  induction l as [|c l IH]; intros s; simpl.
  - rewrite app_nil_r. destruct s; reflexivity.
  - rewrite IH.
    destruct (differs c excludeWs && is_open (ws_readyState s c)); simpl.
    + rewrite <- app_assoc. reflexivity.
    + reflexivity.
Qed.

Lemma broadcastToRoom_eq s r message excludeWs :
  broadcastToRoom s r message excludeWs
  = mkServer (storage s) (rooms s) (ws_roomId s) (ws_readyState s)
      (sent s ++ deliveries message (recipients s r excludeWs)).
Proof.
  unfold broadcastToRoom, recipients, room_clients.
  destruct (map_get String.eqb (rooms s) r) as [l|]; simpl.
  - apply forEach_send.
  - rewrite app_nil_r. destruct s; reflexivity.
Qed.

Lemma In_deliveries message l c m :
  In (c, m) (deliveries message l) <-> m = message /\ In c l.
Proof.
  unfold deliveries. rewrite in_map_iff. split.
  - intros [x [[= <- <-] Hin]]. split; [reflexivity|exact Hin].
  - intros [-> Hin]. exists c. split; [reflexivity|exact Hin].
Qed.

Lemma In_recipients s r excludeWs c :
  In c (recipients s r excludeWs) <->
  In c (room_clients s r) /\ differs c excludeWs = true
  /\ ws_readyState s c = OPEN.
Proof.
  unfold recipients. rewrite filter_In, andb_true_iff.
  assert (Hopen : is_open (ws_readyState s c) = true <-> ws_readyState s c = OPEN).
  { destruct (ws_readyState s c); simpl; split; congruence. }
  rewrite Hopen. tauto.
Qed.

(** ** The handlers in two steps: membership, then recompute and announce *)

Lemma on_message_join s ws data r :
  msg_type data = JoinRoom -> msg_roomId data = Some r -> truthy r = true ->
  on_message s ws data
  = announce (set_rooms (set_ws_roomId s ws r) (joined_rooms s ws r)) r.
Proof.
  intros Ht Hr Htr. unfold on_message. rewrite Ht, Hr, Htr. cbv zeta.
  match goal with
  | |- match getBroadcastByRoomId (storage ?x) r with _ => _ end = _ =>
      assert (Hx : x = set_rooms (set_ws_roomId s ws r) (joined_rooms s ws r))
  end.
  { unfold joined_rooms.
    destruct (map_has String.eqb (rooms (set_ws_roomId s ws r)) r) eqn:Hhas; simpl.
    - reflexivity.
    - assert (Hnone : map_get String.eqb (rooms s) r = None).
      { unfold map_has in Hhas. simpl in Hhas.
        destruct (map_get String.eqb (rooms s) r); [discriminate|reflexivity]. }
      unfold set_rooms, room_clients. simpl.
      rewrite (map_get_set_same String.eqb String.eqb_eq).
      rewrite (map_set_set String.eqb String.eqb_eq).
      rewrite Hnone. reflexivity. }
  rewrite Hx. reflexivity.
Qed.

Lemma on_message_leave s ws data r :
  msg_type data = LeaveRoom -> ws_roomId s ws = Some r ->
  truthy r = true -> map_has String.eqb (rooms s) r = true ->
  on_message s ws data = announce (set_rooms s (left_rooms s ws r)) r.
Proof.
  intros Ht Hr Htr Hhas. unfold on_message. rewrite Ht, Hr, Htr, Hhas.
  reflexivity.
Qed.

Lemma on_close_joined s ws r :
  ws_roomId s ws = Some r ->
  truthy r = true -> map_has String.eqb (rooms s) r = true ->
  on_close s ws = announce (set_rooms s (left_rooms s ws r)) r.
Proof.
  intros Hr Htr Hhas. unfold on_close. rewrite Hr, Htr, Hhas. reflexivity.
Qed.

Lemma on_message_signaling s ws data r :
  signaling (msg_type data) = true -> ws_roomId s ws = Some r ->
  truthy r = true ->
  on_message s ws data = broadcastToRoom s r data (Some ws).
Proof.
  intros Ht Hr Htr. unfold on_message.
  destruct (msg_type data); try discriminate; rewrite Hr, Htr; reflexivity.
Qed.

(** What [announce] leaves alone and what it changes. *)
Ltac by_announce :=
  unfold announce;
  match goal with
  | |- context [getBroadcastByRoomId ?st ?r] =>
      destruct (getBroadcastByRoomId st r)
  end;
  [rewrite broadcastToRoom_eq|]; reflexivity.

Lemma announce_rooms s r : rooms (announce s r) = rooms s.
Proof. by_announce. Qed.

Lemma announce_ws_roomId s r : ws_roomId (announce s r) = ws_roomId s.
Proof. by_announce. Qed.

Lemma announce_ws_readyState s r : ws_readyState (announce s r) = ws_readyState s.
Proof. by_announce. Qed.

Lemma announce_storage s r :
  storage (announce s r)
  = match getBroadcastByRoomId (storage s) r with
    | Some broadcast =>
        updateListenerCount (storage s) (id broadcast) (room_size s r)
    | None => storage s
    end.
Proof. by_announce. Qed.

Lemma announce_sent s r :
  sent (announce s r)
  = match getBroadcastByRoomId (storage s) r with
    | Some broadcast =>
        sent s ++ deliveries (room_update (room_size s r) (isActive broadcast))
                             (recipients s r None)
    | None => sent s
    end.
Proof. by_announce. Qed.

Lemma announce_room_clients s r r' :
  room_clients (announce s r) r' = room_clients s r'.
Proof. unfold room_clients. rewrite announce_rooms. reflexivity. Qed.

Lemma room_clients_joined s s0 ws r :
  room_clients (set_rooms s0 (joined_rooms s ws r)) r
  = set_add (room_clients s r) ws.
Proof.
  unfold room_clients at 1, joined_rooms. simpl.
  rewrite (map_get_set_same String.eqb String.eqb_eq). reflexivity.
Qed.

Lemma room_clients_left s s0 ws r :
  room_clients (set_rooms s0 (left_rooms s ws r)) r
  = set_delete (room_clients s r) ws.
Proof.
  unfold room_clients at 1, left_rooms. simpl.
  rewrite (map_get_set_same String.eqb String.eqb_eq). reflexivity.
Qed.

Lemma room_clients_other s s0 r l r' :
  r' <> r ->
  room_clients (set_rooms s0 (map_set String.eqb (rooms s) r l)) r'
  = room_clients s r'.
Proof.
  intros Hr. unfold room_clients. simpl.
  rewrite (map_get_set_other String.eqb String.eqb_eq); [reflexivity|exact Hr].
Qed.

(** ** Invariants of the relay

    [relay_ok] holds in every state the server can reach. *)

Lemma relay_ok_same s s' :
  rooms s' = rooms s -> ws_roomId s' = ws_roomId s -> relay_ok s -> relay_ok s'.
Proof.
  intros Hr Hw [Hs Hn]. split.
  - intros ws r. rewrite Hw, Hr. apply Hs.
  - intros r l. rewrite Hr. apply Hn.
Qed.

Lemma room_clients_NoDup s r : rooms_ok s -> NoDup (room_clients s r).
Proof.
  intros Hn. unfold room_clients.
  destruct (map_get String.eqb (rooms s) r) as [l|] eqn:E; simpl.
  - exact (Hn r l E).
  - constructor.
Qed.

Lemma rooms_ok_set s s' r l :
  rooms s' = map_set String.eqb (rooms s) r l -> NoDup l ->
  rooms_ok s -> rooms_ok s'.
Proof.
  intros Hr Hl Hn r' l'. rewrite Hr.
  destruct (String.eqb_spec r' r) as [->|Hne].
  - rewrite (map_get_set_same String.eqb String.eqb_eq). intros [= <-]. exact Hl.
  - rewrite (map_get_set_other String.eqb String.eqb_eq) by exact Hne. apply Hn.
Qed.

Lemma relay_ok_join s ws r :
  truthy r = true -> relay_ok s ->
  relay_ok (announce (set_rooms (set_ws_roomId s ws r) (joined_rooms s ws r)) r).
Proof.
  intros Htr [Hs Hn].
  apply relay_ok_same
    with (s := set_rooms (set_ws_roomId s ws r) (joined_rooms s ws r)).
  - apply announce_rooms.
  - apply announce_ws_roomId.
  - split.
    + intros h r'. simpl. unfold joined_rooms.
      destruct (Nat.eqb h ws).
      * intros [= <-]. split; [exact Htr|].
        apply (map_has_set_same String.eqb String.eqb_eq).
      * intros H. destruct (Hs h r' H) as [H1 H2]. split; [exact H1|].
        apply (map_has_set String.eqb String.eqb_eq). exact H2.
    + apply rooms_ok_set with (s := s) (r := r) (l := set_add (room_clients s r) ws).
      * reflexivity.
      * apply set_add_NoDup. apply room_clients_NoDup. exact Hn.
      * exact Hn.
Qed.

Lemma relay_ok_leave s ws r :
  relay_ok s -> relay_ok (announce (set_rooms s (left_rooms s ws r)) r).
Proof.
  intros [Hs Hn].
  apply relay_ok_same with (s := set_rooms s (left_rooms s ws r)).
  - apply announce_rooms.
  - apply announce_ws_roomId.
  - split.
    + intros h r' H. simpl. destruct (Hs h r' H) as [H1 H2]. split; [exact H1|].
      apply (map_has_set String.eqb String.eqb_eq). exact H2.
    + apply rooms_ok_set with (s := s) (r := r) (l := set_delete (room_clients s r) ws).
      * reflexivity.
      * apply set_delete_NoDup. apply room_clients_NoDup. exact Hn.
      * exact Hn.
Qed.

Lemma relay_ok_on_close s ws : relay_ok s -> relay_ok (on_close s ws).
Proof.
  intros Hok. unfold on_close.
  destruct (ws_roomId s ws) as [r|]; [|exact Hok].
  destruct (truthy r && map_has String.eqb (rooms s) r); [|exact Hok].
  apply (relay_ok_leave s ws r Hok).
Qed.

(** A signaling message touches neither [rooms] nor any [roomId]. *)
Ltac relay_ok_signaling Hok Ht :=
  unfold on_message; rewrite Ht;
  match goal with
  | |- relay_ok match ws_roomId ?s ?ws with _ => _ end =>
      destruct (ws_roomId s ws) as [?r|]; [|exact Hok]
  end;
  match goal with
  | |- relay_ok (if truthy ?r then _ else _) =>
      destruct (truthy r); [|exact Hok]
  end;
  rewrite broadcastToRoom_eq; exact Hok.

Lemma relay_ok_on_message s ws data : relay_ok s -> relay_ok (on_message s ws data).
Proof.
  intros Hok. destruct (msg_type data) eqn:Ht.
  - destruct (msg_roomId data) as [r|] eqn:Hr.
    + destruct (truthy r) eqn:Htr.
      * rewrite (on_message_join s ws data r Ht Hr Htr).
        apply relay_ok_join; assumption.
      * unfold on_message. rewrite Ht, Hr, Htr. exact Hok.
    + unfold on_message. rewrite Ht, Hr. exact Hok.
  - unfold on_message. rewrite Ht.
    destruct (ws_roomId s ws) as [r|]; [|exact Hok].
    destruct (truthy r && map_has String.eqb (rooms s) r); [|exact Hok].
    apply (relay_ok_leave s ws r Hok).
  - relay_ok_signaling Hok Ht.
  - relay_ok_signaling Hok Ht.
  - relay_ok_signaling Hok Ht.
  - unfold on_message. rewrite Ht. exact Hok.
Qed.

Lemma relay_ok_step s e : relay_ok s -> relay_ok (step s e).
Proof.
  intros Hok. destruct e as [body now|idParam updates|ws|ws data|ws|ws]; simpl.
  - exact Hok.
  - exact Hok.
  - destruct (ws_readyState s ws); exact Hok.
  - destruct (is_open (ws_readyState s ws)); [|exact Hok].
    apply relay_ok_on_message. exact Hok.
  - destruct (is_open (ws_readyState s ws)); exact Hok.
  - destruct (ws_readyState s ws); try exact Hok;
      apply relay_ok_on_close; exact Hok.
Qed.

Lemma relay_ok_initial : relay_ok initial.
Proof.
  split.
  - intros ws r. simpl. discriminate.
  - intros r l. simpl. discriminate.
Qed.

Lemma reachable_relay_ok s : reachable s -> relay_ok s.
Proof.
  induction 1 as [|s e _ IH].
  - apply relay_ok_initial.
  - apply relay_ok_step. exact IH.
Qed.

Lemma reachable_run s es : reachable s -> reachable (run s es).
Proof.
  revert s. induction es as [|e es IH]; intros s Hs; simpl.
  - exact Hs.
  - apply IH. constructor. exact Hs.
Qed.

Lemma truthy_true r : truthy r = true <-> r <> "".
Proof.
  unfold truthy. destruct (String.eqb_spec r ""); simpl; split; congruence.
Qed.

Lemma recipients_ext s s' r excludeWs :
  rooms s' = rooms s ->
  (forall c, In c (room_clients s r) -> ws_readyState s' c = ws_readyState s c) ->
  recipients s' r excludeWs = recipients s r excludeWs.
Proof.
  intros Hr Hc. unfold recipients.
  assert (Hcl : room_clients s' r = room_clients s r).
  { unfold room_clients. rewrite Hr. reflexivity. }
  rewrite Hcl. apply filter_ext_in. intros c Hin. rewrite (Hc c Hin). reflexivity.
Qed.

(** ** Closure and leave *)

Lemma reachable_two_joined : reachable two_joined.
Proof. apply reachable_run. constructor. Qed.

(** C4.  When the socket of an open connection closes, the [close]
    handler leaves the membership table, the registry (hence every
    [listenerCount]) and the texts sent to the remaining members exactly
    as the handling of a [leave-room] message from that connection would
    have left them; this holds for every connection, joined or not. *)
Theorem close_acts_as_leave s ws data :
  ws_readyState s ws = OPEN ->
  msg_type data = LeaveRoom ->
  rooms (step s (WsClose ws)) = rooms (step s (WsMessage ws data)) /\
  storage (step s (WsClose ws)) = storage (step s (WsMessage ws data)) /\
  sent (step s (WsClose ws)) = sent (step s (WsMessage ws data)).
Proof.
  intros Hopen Ht. simpl. rewrite Hopen. simpl.
  set (s0 := set_ws_readyState s ws CLOSED).
  destruct (ws_roomId s ws) as [r|] eqn:Hr.
  - destruct (truthy r && map_has String.eqb (rooms s) r) eqn:Hc.
    + apply andb_true_iff in Hc. destruct Hc as [Htr Hhas].
      rewrite (on_close_joined s0 ws r Hr Htr Hhas).
      rewrite (on_message_leave s ws data r Ht Hr Htr Hhas).
      rewrite !announce_rooms, !announce_storage, !announce_sent.
      split; [reflexivity|]. split; [reflexivity|].
      simpl storage.
      destruct (getBroadcastByRoomId (storage s) r) as [broadcast|]; [|reflexivity].
      simpl sent. f_equal. f_equal.
      apply recipients_ext; [reflexivity|].
      intros c Hin. simpl.
      rewrite room_clients_left in Hin.
      apply set_delete_In in Hin. destruct Hin as [_ Hne].
      apply Nat.eqb_neq in Hne. rewrite Hne. reflexivity.
    + unfold on_close, on_message. rewrite Ht. simpl ws_roomId. simpl rooms.
      rewrite Hr, Hc. repeat split.
  - unfold on_close, on_message. rewrite Ht. simpl ws_roomId. rewrite Hr.
    repeat split.
Qed.

Lemma close_acts_as_leave_witness :
  ws_readyState two_joined 2%nat = OPEN /\
  msg_type (leave_room "abc123") = LeaveRoom /\
  rooms (step two_joined (WsClose 2%nat))
    = rooms (step two_joined (WsMessage 2%nat (leave_room "abc123"))) /\
  storage (step two_joined (WsClose 2%nat))
    = storage (step two_joined (WsMessage 2%nat (leave_room "abc123"))) /\
  sent (step two_joined (WsClose 2%nat))
    = sent (step two_joined (WsMessage 2%nat (leave_room "abc123"))).
Proof.
  split; [reflexivity|]. split; [reflexivity|].
  apply (close_acts_as_leave two_joined 2%nat (leave_room "abc123"));
    reflexivity.
Defined.

(** ** Fan-out of signaling messages *)

(** Against C5 as stated.  The closing handshake of listener [2] has
    started, its [close] event has not been emitted yet: [2] is still in
    the set of the room, and an offer of the broadcaster [1] is not
    handed to it. *)
Lemma fanout_skips_closing_member :
  let s := step two_joined (WsClosing 2%nat) in
  ws_roomId s 1%nat = Some "abc123" /\
  In 1%nat (room_clients s "abc123") /\
  In 2%nat (room_clients s "abc123") /\
  ws_readyState s 2%nat = CLOSING /\
  2%nat <> 1%nat /\
  sent (step s (WsMessage 1%nat sdp_offer)) = sent s /\
  ~ In (2%nat, sdp_offer) (sent (step s (WsMessage 1%nat sdp_offer))).
Proof.
  cbv zeta. split; [reflexivity|].
  split; [vm_compute; auto|]. split; [vm_compute; auto|].
  split; [reflexivity|].
  split; [discriminate|]. split; [reflexivity|].
  intros H. vm_compute in H.
  repeat (destruct H as [H|H]; [discriminate H|]). exact H.
Qed.

(** C5, amended.  In a reachable state, a signaling message ([offer],
    [answer] or [ice-candidate]) from a connection [ws] whose session
    room is [r] changes nothing but the texts sent: the relay sends the
    message itself, unchanged, once to every member of [r] other than
    [ws] whose socket is open, and to nobody else; in particular never to
    [ws]. *)
Theorem signaling_fanout s ws data r :
  reachable s ->
  signaling (msg_type data) = true ->
  ws_roomId s ws = Some r ->
  let s' := on_message s ws data in
  storage s' = storage s /\ rooms s' = rooms s /\
  exists to : list Handle,
    sent s' = sent s ++ deliveries data to /\
    NoDup to /\
    (forall c, In c to <->
               In c (room_clients s r) /\ c <> ws /\ ws_readyState s c = OPEN) /\
    (forall m, ~ In (ws, m) (deliveries data to)).
Proof.
  intros Hreach Ht Hr s'.
  destruct (reachable_relay_ok s Hreach) as [Hs Hn].
  destruct (Hs ws r Hr) as [Htr _].
  subst s'. rewrite (on_message_signaling s ws data r Ht Hr Htr).
  rewrite broadcastToRoom_eq. simpl.
  split; [reflexivity|]. split; [reflexivity|].
  exists (recipients s r (Some ws)).
  assert (Hto : forall c, In c (recipients s r (Some ws)) <->
            In c (room_clients s r) /\ c <> ws /\ ws_readyState s c = OPEN).
  { intros c. rewrite In_recipients. simpl.
    rewrite negb_true_iff, Nat.eqb_neq. tauto. }
  split; [reflexivity|]. split; [|split].
  - unfold recipients. apply NoDup_filter. apply room_clients_NoDup. exact Hn.
  - exact Hto.
  - intros m Hin. apply In_deliveries in Hin. destruct Hin as [_ Hin].
    apply Hto in Hin. destruct Hin as [_ [Hne _]]. apply Hne. reflexivity.
Qed.

Lemma signaling_fanout_witness :
  reachable two_joined /\
  signaling (msg_type sdp_offer) = true /\
  ws_roomId two_joined 1%nat = Some "abc123" /\
  storage (on_message two_joined 1%nat sdp_offer) = storage two_joined /\
  rooms (on_message two_joined 1%nat sdp_offer) = rooms two_joined /\
  exists to : list Handle,
    sent (on_message two_joined 1%nat sdp_offer)
      = sent two_joined ++ deliveries sdp_offer to /\
    NoDup to /\
    (forall c, In c to <->
               In c (room_clients two_joined "abc123") /\ c <> 1%nat
               /\ ws_readyState two_joined c = OPEN) /\
    (forall m, ~ In (1%nat, m) (deliveries sdp_offer to)).
Proof.
  split; [exact reachable_two_joined|].
  split; [reflexivity|]. split; [reflexivity|].
  apply (signaling_fanout two_joined 1%nat sdp_offer "abc123").
  - exact reachable_two_joined.
  - reflexivity.
  - reflexivity.
Defined.

(** ** The session room after a leave *)

Lemma leave_keeps_ws_roomId s ws data :
  msg_type data = LeaveRoom ->
  ws_roomId (on_message s ws data) = ws_roomId s.
Proof.
  intros Ht. unfold on_message. rewrite Ht.
  destruct (ws_roomId s ws) as [r|]; [|reflexivity].
  destruct (truthy r && map_has String.eqb (rooms s) r); [|reflexivity].
  fold (left_rooms s ws r). fold (announce (set_rooms s (left_rooms s ws r)) r).
  rewrite announce_ws_roomId. reflexivity.
Qed.

Lemma close_keeps_ws_roomId s ws : ws_roomId (on_close s ws) = ws_roomId s.
Proof.
  unfold on_close.
  destruct (ws_roomId s ws) as [r|]; [|reflexivity].
  destruct (truthy r && map_has String.eqb (rooms s) r); [|reflexivity].
  fold (left_rooms s ws r). fold (announce (set_rooms s (left_rooms s ws r)) r).
  rewrite announce_ws_roomId. reflexivity.
Qed.

(** C6.  The listener [2] of room [abc123] sends [leave-room] and then,
    its socket still open, an offer: the handler of [leave-room] takes
    [2] out of the set of the room but leaves its [roomId] as it was, so
    the offer is forwarded to the broadcaster [1], who is still in the
    room. *)
Theorem offer_after_leave_is_forwarded :
  let left := step two_joined (WsMessage 2%nat (leave_room "abc123")) in
  let s := step left (WsMessage 2%nat sdp_offer) in
  ~ In 2%nat (room_clients left "abc123") /\
  ws_readyState left 2%nat = OPEN /\
  ws_roomId left 2%nat = Some "abc123" /\
  sent s = sent left ++ [(1%nat, sdp_offer)].
Proof.
  cbv zeta. split; [|repeat split].
  vm_compute. intros [H|[]]. discriminate H.
Qed.

(** ** The registry: creation *)

Lemma getBroadcast_created st body now :
  getBroadcast (snd (createBroadcast st body now))
               (id (fst (createBroadcast st body now)))
  = Some (fst (createBroadcast st body now)).
Proof.
  unfold getBroadcast. simpl. apply (map_get_set_same Z.eqb Z.eqb_eq).
Qed.

(** Creation never looks at the room ids already held: every parsed
    request is answered with a fresh record for its [roomId]. *)
Lemma post_broadcasts_accepts st body now :
  exists broadcast st',
    post_broadcasts st (Some body) now = (Json broadcast, st') /\
    roomId broadcast = ins_roomId body /\
    id broadcast = currentBroadcastId st /\
    getBroadcast st' (id broadcast) = Some broadcast.
Proof.
  exists (fst (createBroadcast st body now)), (snd (createBroadcast st body now)).
  split; [reflexivity|]. split; [reflexivity|]. split; [reflexivity|].
  apply getBroadcast_created.
Qed.

(** C1.  A second create request for room [abc123], while the record of
    the first one is held, is answered with a new record (id 2) and not
    with an error; afterwards the registry holds two records for the
    room. *)
Theorem duplicate_room_is_created :
  exists first second st',
    getBroadcastByRoomId after_first_post "abc123" = Some first /\
    post_broadcasts after_first_post (Some abc123_request) 1 = (Json second, st') /\
    id first = 1 /\ id second = 2 /\
    roomId first = "abc123" /\ roomId second = "abc123" /\
    getBroadcast st' 1 = Some first /\ getBroadcast st' 2 = Some second.
Proof.
  eexists. eexists. eexists. repeat split.
Qed.

(** Against C7 as stated.  A request that passes [insertBroadcastSchema]
    may carry [isActive] and [listenerCount]; the record created from it
    has these values. *)
Lemma create_takes_supplied_fields :
  exists broadcast st',
    post_broadcasts newMemStorage (Some stopped_request) 0 = (Json broadcast, st') /\
    getBroadcast st' (id broadcast) = Some broadcast /\
    isActive broadcast = false /\ listenerCount broadcast = 5.
Proof.
  eexists. eexists. repeat split.
Qed.

(** C7, amended.  Every create request that passes the schema is
    answered with the record created for it, and that record is the one
    stored under its id; its [isActive] is the value of the request, or
    [true] when the request has none, and its [listenerCount] is the
    value of the request, or [0] when the request has none. *)
Theorem create_defaults st body now :
  exists broadcast st',
    post_broadcasts st (Some body) now = (Json broadcast, st') /\
    getBroadcast st' (id broadcast) = Some broadcast /\
    isActive broadcast = nullish (ins_isActive body) true /\
    listenerCount broadcast = nullish (ins_listenerCount body) 0 /\
    (ins_isActive body = None -> isActive broadcast = true) /\
    (ins_listenerCount body = None -> listenerCount broadcast = 0).
Proof.
  exists (fst (createBroadcast st body now)), (snd (createBroadcast st body now)).
  split; [reflexivity|]. split; [apply getBroadcast_created|].
  split; [reflexivity|]. split; [reflexivity|]. simpl.
  split; intros ->; reflexivity.
Qed.

(** ** The registry: updates and the id of a record *)

(** C8.  A PATCH of broadcast 1 whose body has an [id] field: the record
    stored under key 1 had id 1 before and has id 2 afterwards, and that
    record is the answer. *)
Theorem patch_overwrites_id :
  exists before after st',
    getBroadcast after_first_post 1 = Some before /\ id before = 1 /\
    patch_broadcast after_first_post (Some 1) id_update = (Json after, st') /\
    getBroadcast st' 1 = Some after /\ id after = 2 /\
    getBroadcast st' 2 = None.
Proof.
  eexists. eexists. eexists. repeat split.
Qed.

(** ** Records stored under their own id

    Creation, [updateListenerCount], and an update without an [id] field
    keep [registry_ok]. *)

Lemma registry_ok_new : registry_ok newMemStorage.
Proof. split; [constructor|intros k b []]. Qed.

Lemma NoDup_snoc {A : Type} (l : list A) (x : A) :
  NoDup l -> ~ In x l -> NoDup (l ++ [x]).
Proof.
  intros Hnd Hx. induction Hnd as [|y l Hy Hnd IH]; simpl.
  - constructor; [intros []|constructor].
  - constructor.
    + rewrite in_app_iff. simpl. intros [H|[H|[]]]; [exact (Hy H)|].
      apply Hx. left. symmetry. exact H.
    + apply IH. intros H. apply Hx. right. exact H.
Qed.

Lemma registry_ok_create st body now :
  registry_ok st -> registry_ok (snd (createBroadcast st body now)).
Proof.
  intros [Hnd Hid]. simpl.
  assert (Hfresh : ~ In (currentBroadcastId st) (map fst (broadcasts st))).
  { intros Hin. apply in_map_iff in Hin. destruct Hin as [[k b] [Hk Hin]].
    simpl in Hk. subst k. destruct (Hid _ _ Hin) as [_ Hlt]. lia. }
  split; simpl.
  - rewrite (map_set_keys_fresh Z.eqb).
    + apply NoDup_snoc; assumption.
    + unfold map_has.
      destruct (map_get Z.eqb (broadcasts st) (currentBroadcastId st)) eqn:E;
        [|reflexivity].
      exfalso. apply Hfresh. apply (map_get_In Z.eqb Z.eqb_eq) in E.
      change (currentBroadcastId st) with (fst (currentBroadcastId st, b)).
      apply in_map. exact E.
  - intros k b Hin. apply In_map_set in Hin; [|exact Z.eqb_eq].
    destruct Hin as [[-> ->]|Hin].
    + simpl. split; [reflexivity|lia].
    + destruct (Hid _ _ Hin) as [H1 H2]. split; [exact H1|lia].
Qed.




(** After [updateListenerCount] with the id of the record found for room
    [r], the record found for room [r] carries the new count. *)
Lemma find_room_after_count (l : list (Z * Broadcast)) r b0 n :
  NoDup (map fst l) ->
  (forall k b, In (k, b) l -> id b = k) ->
  find (fun b => (roomId b =? r)%string) (map_values l) = Some b0 ->
  find (fun b => (roomId b =? r)%string)
       (map_values
          (match map_get Z.eqb l (id b0) with
           | Some b => map_set Z.eqb l (id b0) (with_listenerCount b n)
           | None => l
           end))
  = Some (with_listenerCount b0 n).
Proof.
  induction l as [|[k b] t IH]; simpl; [discriminate|].
  intros Hnd Hid Hfind.
  inversion Hnd as [|? ? Hk Hnd']; subst.
  destruct (roomId b =? r)%string eqn:Hroom.
  - injection Hfind as <-.
    assert (Hb : id b = k) by (apply Hid; left; reflexivity).
    rewrite Hb, Z.eqb_refl. simpl. rewrite ?Z.eqb_refl. simpl.
    rewrite Hroom. reflexivity.
  - assert (Hin : exists k0, In (k0, b0) t).
    { apply find_some in Hfind. destruct Hfind as [Hin _].
      unfold map_values in Hin. apply in_map_iff in Hin.
      destruct Hin as [[k0 b'] [Hs Hin]]. simpl in Hs. subst b'.
      exists k0. exact Hin. }
    destruct Hin as [k0 Hin].
    assert (Hb0 : id b0 = k0) by (apply Hid; right; exact Hin).
    assert (Hne : (id b0 =? k) = false).
    { apply Z.eqb_neq. rewrite Hb0. intros ->. apply Hk.
      change k with (fst (k, b0)). apply in_map. exact Hin. }
    rewrite Hne.
    assert (IH' := IH Hnd' (fun k' b' H => Hid k' b' (or_intror H)) Hfind).
    destruct (map_get Z.eqb t (id b0)) as [b1|].
    + cbn [map_values map snd find]. rewrite Hroom. exact IH'.
    + cbn [map_values map snd find]. rewrite Hroom. exact IH'.
Qed.

Lemma broadcasts_updateListenerCount st i n :
  broadcasts (updateListenerCount st i n)
  = match map_get Z.eqb (broadcasts st) i with
    | Some b => map_set Z.eqb (broadcasts st) i (with_listenerCount b n)
    | None => broadcasts st
    end.
Proof.
  unfold updateListenerCount.
  destruct (map_get Z.eqb (broadcasts st) i); reflexivity.
Qed.

(** ** The listener count after a join, a leave or a closure *)

(** While every record is stored under its own id, the recompute and
    announce step leaves the record of room [r] with the size of the
    room as its [listenerCount]. *)
Lemma announce_syncs s r broadcast :
  registry_ok (storage s) ->
  getBroadcastByRoomId (storage (announce s r)) r = Some broadcast ->
  listenerCount broadcast = room_size (announce s r) r.
Proof.
  intros [Hnd Hid]. rewrite announce_storage.
  unfold room_size. rewrite announce_room_clients. fold (room_size s r).
  destruct (getBroadcastByRoomId (storage s) r) as [b0|] eqn:E.
  - unfold getBroadcastByRoomId in *.
    rewrite broadcasts_updateListenerCount.
    rewrite (find_room_after_count (broadcasts (storage s)) r b0 (room_size s r));
      [intros [= <-]; reflexivity|exact Hnd| |exact E].
    intros k b Hin. exact (proj1 (Hid k b Hin)).
  - rewrite E. discriminate.
Qed.


Lemma leave_syncs s ws data r broadcast :
  reachable s -> registry_ok (storage s) ->
  msg_type data = LeaveRoom -> ws_roomId s ws = Some r ->
  getBroadcastByRoomId (storage (on_message s ws data)) r = Some broadcast ->
  listenerCount broadcast = room_size (on_message s ws data) r.
Proof.
  intros Hreach Hok Ht Hr.
  destruct (proj1 (reachable_relay_ok s Hreach) ws r Hr) as [Htr Hhas].
  rewrite (on_message_leave s ws data r Ht Hr Htr Hhas).
  apply announce_syncs. exact Hok.
Qed.

Lemma close_syncs s ws r broadcast :
  reachable s -> registry_ok (storage s) ->
  ws_roomId s ws = Some r ->
  getBroadcastByRoomId (storage (on_close s ws)) r = Some broadcast ->
  listenerCount broadcast = room_size (on_close s ws) r.
Proof.
  intros Hreach Hok Hr.
  destruct (proj1 (reachable_relay_ok s Hreach) ws r Hr) as [Htr Hhas].
  rewrite (on_close_joined s ws r Hr Htr Hhas).
  apply announce_syncs. exact Hok.
Qed.

(** C3.  Broadcast 1 of room [abc123] has had its [id] overwritten by a
    PATCH.  When connection [1] then joins
    the room, the handler finds the record by its room, asks
    [updateListenerCount] for the id it reads in the record, and no
    record is stored under that id: the room has one member and is told
    so, and the [listenerCount] of its record stays 0. *)
Theorem join_after_id_patch_leaves_count :
  exists broadcast,
    getBroadcastByRoomId (storage patched_then_joined) "abc123" = Some broadcast /\
    listenerCount broadcast = 0 /\
    room_size patched_then_joined "abc123" = 1 /\
    sent patched_then_joined = [(1%nat, room_update 1 true)].
Proof.
  eexists. repeat split.
Qed.

(** ** One room per connection *)

Lemma second_join_keeps_first_room s ws a b :
  a <> "" -> b <> "" ->
  let s' := on_message (on_message s ws (join_room a)) ws (join_room b) in
  In ws (room_clients s' a) /\ In ws (room_clients s' b) /\
  ws_roomId s' ws = Some b.
Proof.
  intros Ha Hb s'. apply truthy_true in Ha. apply truthy_true in Hb.
  subst s'.
  rewrite (on_message_join _ ws (join_room b) b eq_refl eq_refl Hb).
  rewrite (on_message_join s ws (join_room a) a eq_refl eq_refl Ha).
  set (s1 := announce (set_rooms (set_ws_roomId s ws a) (joined_rooms s ws a)) a).
  assert (H1 : In ws (room_clients s1 a)).
  { unfold s1. rewrite announce_room_clients, room_clients_joined.
    apply set_add_In. left; reflexivity. }
  split; [|split].
  - rewrite announce_room_clients.
    destruct (String.eqb_spec a b) as [->|Hab].
    + rewrite room_clients_joined. apply set_add_In. left; reflexivity.
    + unfold joined_rooms. rewrite room_clients_other by exact Hab. exact H1.
  - rewrite announce_room_clients, room_clients_joined.
    apply set_add_In. left; reflexivity.
  - rewrite announce_ws_roomId. simpl. rewrite Nat.eqb_refl. reflexivity.
Qed.

(** C2.  Connection [1] joins room [A] and then room [B]: in the state
    reached it is in the set of [A] and in the set of [B]; when its
    socket closes it is taken out of [B] only and stays in [A]. *)
Theorem member_of_two_rooms :
  reachable joined_twice /\
  In 1%nat (room_clients joined_twice "A") /\
  In 1%nat (room_clients joined_twice "B") /\
  ws_roomId joined_twice 1%nat = Some "B" /\
  In 1%nat (room_clients (step joined_twice (WsClose 1%nat)) "A") /\
  ~ In 1%nat (room_clients (step joined_twice (WsClose 1%nat)) "B").
Proof.
  split; [apply reachable_run; constructor|].
  vm_compute. repeat split; auto.
Qed.

(** ** Joining twice *)


(** ** Joining a room that has no broadcast *)

(** C10.  When [join-room] names a room (a non-empty [roomId]) for which
    the registry finds no broadcast, the handler still records the room
    in the session and adds the connection to the set of the room, it
    leaves the registry as it is and sends nothing to anybody; and from
    then on a signaling message of any other connection whose session
    room is that room is sent to the joiner, as long as the joiner's
    socket is open. *)
Theorem join_without_broadcast s ws data r :
  msg_type data = JoinRoom -> msg_roomId data = Some r -> r <> "" ->
  getBroadcastByRoomId (storage s) r = None ->
  let s' := on_message s ws data in
  In ws (room_clients s' r) /\
  ws_roomId s' ws = Some r /\
  storage s' = storage s /\
  sent s' = sent s /\
  forall peer signal,
    peer <> ws -> ws_roomId s' peer = Some r ->
    signaling (msg_type signal) = true ->
    ws_readyState s' ws = OPEN ->
    exists before after,
      sent (on_message s' peer signal)
      = sent s' ++ before ++ (ws, signal) :: after.
Proof.
  intros Ht Hr Hne Hnone s'. apply truthy_true in Hne.
  assert (Hs' : s' = set_rooms (set_ws_roomId s ws r) (joined_rooms s ws r)).
  { unfold s'. rewrite (on_message_join s ws data r Ht Hr Hne).
    unfold announce. simpl storage. rewrite Hnone. reflexivity. }
  assert (Hin : In ws (room_clients s' r)).
  { rewrite Hs', room_clients_joined. apply set_add_In. left; reflexivity. }
  split; [exact Hin|].
  split; [rewrite Hs'; simpl; rewrite Nat.eqb_refl; reflexivity|].
  split; [rewrite Hs'; reflexivity|].
  split; [rewrite Hs'; reflexivity|].
  intros peer signal Hpeer Hroom Hsig Hopen.
  rewrite (on_message_signaling s' peer signal r Hsig Hroom Hne).
  rewrite broadcastToRoom_eq. simpl sent.
  assert (Hrec : In ws (recipients s' r (Some peer))).
  { apply In_recipients. split; [exact Hin|]. split; [|exact Hopen].
    simpl. apply negb_true_iff. apply Nat.eqb_neq.
    intros Heq. apply Hpeer. symmetry. exact Heq. }
  apply in_split in Hrec. destruct Hrec as [l1 [l2 Hrec]].
  exists (deliveries signal l1), (deliveries signal l2).
  rewrite Hrec. unfold deliveries. rewrite map_app. reflexivity.
Qed.

Lemma join_without_broadcast_witness :
  msg_type (join_room "lobby") = JoinRoom /\
  msg_roomId (join_room "lobby") = Some "lobby" /\
  "lobby" <> "" /\
  getBroadcastByRoomId (storage lobby) "lobby" = None /\
  let s' := on_message lobby 2%nat (join_room "lobby") in
  In 2%nat (room_clients s' "lobby") /\
  ws_roomId s' 2%nat = Some "lobby" /\
  storage s' = storage lobby /\
  sent s' = sent lobby /\
  forall peer signal,
    peer <> 2%nat -> ws_roomId s' peer = Some "lobby" ->
    signaling (msg_type signal) = true ->
    ws_readyState s' 2%nat = OPEN ->
    exists before after,
      sent (on_message s' peer signal)
      = sent s' ++ before ++ (2%nat, signal) :: after.
Proof.
  split; [reflexivity|]. split; [reflexivity|]. split; [discriminate|].
  split; [reflexivity|].
  apply (join_without_broadcast lobby 2%nat (join_room "lobby") "lobby").
  - reflexivity.
  - reflexivity.
  - discriminate.
  - reflexivity.
Defined.

(** In room [lobby]: once [2] has joined, the ICE candidate of [1]
    reaches [2], and nothing else was ever sent. *)
Example lobby_fanout :
  let s' := step lobby (WsMessage 2%nat (join_room "lobby")) in
  ws_roomId s' 1%nat = Some "lobby" /\ ws_readyState s' 2%nat = OPEN /\
  sent s' = [] /\
  sent (step s' (WsMessage 1%nat ice)) = [(2%nat, ice)].
Proof. cbv zeta. repeat split. Qed.

(** * More of the code *)

(** ** More facts about the [Map] model *)

Section JsMapMoreFacts.
Context {K V : Type}.
Variable eqb : K -> K -> bool.
Hypothesis eqb_eq : forall a b, eqb a b = true <-> a = b.

Lemma map_get_delete_same (m : list (K * V)) k :
  map_get eqb (map_delete eqb m k) k = None.
Proof.
  induction m as [|[k' v'] rest IH]; simpl; [reflexivity|].
  destruct (eqb k k') eqn:E; simpl; [exact IH|].
  rewrite E. exact IH.
Qed.

Lemma map_get_delete_other (m : list (K * V)) k k' :
  k' <> k -> map_get eqb (map_delete eqb m k) k' = map_get eqb m k'.
Proof.
  intros Hk. induction m as [|[k0 v0] rest IH]; simpl; [reflexivity|].
  destruct (eqb k k0) eqn:E; simpl.
  - apply eqb_eq in E. subst k0.
    rewrite (eqb_diff eqb eqb_eq _ _ Hk). exact IH.
  - rewrite IH. reflexivity.
Qed.

Lemma map_delete_absent (m : list (K * V)) k :
  map_get eqb m k = None -> map_delete eqb m k = m.
Proof.
  induction m as [|[k' v'] rest IH]; simpl; [reflexivity|].
  destruct (eqb k k') eqn:E; [discriminate|]. simpl.
  intros H. rewrite (IH H). reflexivity.
Qed.

Lemma In_map_delete (m : list (K * V)) k k' v' :
  In (k', v') (map_delete eqb m k) <-> In (k', v') m /\ k' <> k.
Proof.
  unfold map_delete. rewrite filter_In. simpl. rewrite negb_true_iff. split.
  - intros [Hin E]. split; [exact Hin|].
    intros ->. rewrite (eqb_same eqb eqb_eq) in E. discriminate.
  - intros [Hin Hne]. split; [exact Hin|].
    apply (eqb_diff eqb eqb_eq). intros Heq. apply Hne. symmetry. exact Heq.
Qed.

Lemma map_delete_keys_NoDup (m : list (K * V)) k :
  NoDup (map fst m) -> NoDup (map fst (map_delete eqb m k)).
Proof.
  induction m as [|[k' v'] rest IH]; simpl; [auto|].
  intros Hnd. inversion Hnd as [|? ? Hk Hrest]; subst.
  destruct (eqb k k'); simpl; [exact (IH Hrest)|].
  constructor; [|exact (IH Hrest)].
  intros Hin. apply Hk. apply in_map_iff in Hin.
  destruct Hin as [[k0 v0] [Hf Hin]]. simpl in Hf. subst k0.
  apply In_map_delete in Hin. destruct Hin as [Hin _].
  change k' with (fst (k', v0)). apply in_map. exact Hin.
Qed.

Lemma In_map_get (m : list (K * V)) k v :
  NoDup (map fst m) -> In (k, v) m -> map_get eqb m k = Some v.
Proof.
  induction m as [|[k' v'] rest IH]; simpl; [tauto|].
  intros Hnd [Hin|Hin].
  - injection Hin as -> ->. rewrite (eqb_same eqb eqb_eq). reflexivity.
  - inversion Hnd as [|? ? Hnot Hrest]; subst.
    destruct (eqb k k') eqn:E.
    + apply eqb_eq in E. subst. exfalso. apply Hnot.
      change k' with (fst (k', v)). apply in_map. exact Hin.
    + apply IH; assumption.
Qed.

(** Where [set] writes: over the first entry of the key, or at the end. *)
Lemma map_set_present (m : list (K * V)) k v w :
  map_get eqb m k = Some v ->
  exists before after,
    m = before ++ (k, v) :: after /\
    map_set eqb m k w = before ++ (k, w) :: after.
Proof.
  induction m as [|[k' v'] rest IH]; simpl; [discriminate|].
  destruct (eqb k k') eqn:E.
  - intros [= ->]. apply eqb_eq in E. subst k'.
    exists [], rest. split; reflexivity.
  - intros H. destruct (IH H) as [before [after [H1 H2]]].
    exists ((k', v') :: before), after. simpl. rewrite <- H1, H2.
    split; reflexivity.
Qed.

Lemma map_set_absent (m : list (K * V)) k v :
  map_get eqb m k = None -> map_set eqb m k v = m ++ [(k, v)].
Proof.
  induction m as [|[k' v'] rest IH]; simpl; [reflexivity|].
  destruct (eqb k k') eqn:E; [discriminate|].
  intros H. rewrite (IH H). reflexivity.
Qed.

Lemma map_set_same_value (m : list (K * V)) k v :
  map_get eqb m k = Some v -> map_set eqb m k v = m.
Proof.
  intros H. destruct (map_set_present m k v v H) as [before [after [H1 H2]]].
  rewrite H2. symmetry. exact H1.
Qed.

(** With distinct keys, deleting a key takes out its one entry. *)
Lemma map_delete_split (before after : list (K * V)) k v :
  NoDup (map fst (before ++ (k, v) :: after)) ->
  map_delete eqb (before ++ (k, v) :: after) k = before ++ after.
Proof.
  intros Hnd. unfold map_delete. rewrite filter_app. simpl.
  rewrite (eqb_same eqb eqb_eq). simpl.
  rewrite map_app in Hnd. simpl in Hnd.
  assert (Hk : forall l : list (K * V), ~ In k (map fst l) ->
            filter (fun entry => negb (eqb k (fst entry))) l = l).
  { induction l as [|[k' v'] l IH]; simpl; [reflexivity|].
    intros Hnot. destruct (eqb k k') eqn:E.
    - apply eqb_eq in E. exfalso. apply Hnot. left. symmetry. exact E.
    - simpl. rewrite IH; [reflexivity|]. intros H. apply Hnot. right. exact H. }
  apply NoDup_remove_2 in Hnd. rewrite in_app_iff in Hnd.
  rewrite !Hk; [reflexivity| |]; intros H; apply Hnd; [right|left]; exact H.
Qed.
End JsMapMoreFacts.

Lemma find_split {A : Type} (f : A -> bool) (l : list A) x :
  find f l = Some x ->
  exists before after,
    l = before ++ x :: after /\ f x = true /\
    forall y, In y before -> f y = false.
Proof.
  induction l as [|a l IH]; simpl; [discriminate|].
  destruct (f a) eqn:E.
  - intros [= ->]. exists [], l. split; [reflexivity|]. split; [exact E|].
    intros y [].
  - intros H. destruct (IH H) as [before [after [H1 [H2 H3]]]].
    exists (a :: before), after. split; [simpl; rewrite H1; reflexivity|].
    split; [exact H2|]. intros y [<-|Hy]; [exact E|exact (H3 y Hy)].
Qed.

Lemma find_app_first {A : Type} (f : A -> bool) (l1 l2 : list A) :
  find f (l1 ++ l2) = match find f l1 with Some x => Some x | None => find f l2 end.
Proof.
  induction l1 as [|a l1 IH]; simpl; [reflexivity|].
  destruct (f a); [reflexivity|exact IH].
Qed.

Lemma getBroadcast_absent_fresh st :
  registry_ok st -> getBroadcast st (currentBroadcastId st) = None.
Proof.
  intros [_ Hid]. unfold getBroadcast.
  destruct (map_get Z.eqb (broadcasts st) (currentBroadcastId st)) as [b|] eqn:E;
    [|reflexivity].
  apply (map_get_In Z.eqb Z.eqb_eq) in E. destruct (Hid _ _ E) as [_ Hlt]. lia.
Qed.

(** ** The id counter stays above the keys *)

Lemma keys_below_replace st k old new :
  keys_below st -> map_get Z.eqb (broadcasts st) k = Some old ->
  keys_below (mkMemStorage (map_set Z.eqb (broadcasts st) k new)
                           (currentBroadcastId st)).
Proof.
  intros Hkb Hget k' b Hin. simpl in *.
  apply In_map_set in Hin; [|exact Z.eqb_eq].
  destruct Hin as [[-> _]|Hin].
  - apply (map_get_In Z.eqb Z.eqb_eq) in Hget. exact (Hkb _ _ Hget).
  - exact (Hkb _ _ Hin).
Qed.

Lemma keys_below_create st body now :
  keys_below st -> keys_below (snd (createBroadcast st body now)).
Proof.
  intros Hkb k b Hin. simpl in *.
  apply In_map_set in Hin; [|exact Z.eqb_eq].
  destruct Hin as [[-> _]|Hin]; [lia|].
  assert (H := Hkb _ _ Hin). lia.
Qed.

Lemma keys_below_updateBroadcast st k updates :
  keys_below st -> keys_below (snd (updateBroadcast st k updates)).
Proof.
  intros Hkb. unfold updateBroadcast.
  destruct (map_get Z.eqb (broadcasts st) k) as [b|] eqn:E; [|exact Hkb].
  exact (keys_below_replace st k b _ Hkb E).
Qed.

Lemma keys_below_updateListenerCount st i n :
  keys_below st -> keys_below (updateListenerCount st i n).
Proof.
  intros Hkb. unfold updateListenerCount.
  destruct (map_get Z.eqb (broadcasts st) i) as [b|] eqn:E; [|exact Hkb].
  exact (keys_below_replace st i b _ Hkb E).
Qed.

(** What the handlers do to the registry, they do through
    [updateListenerCount]. *)
Lemma handlers_keep (P : MemStorage -> Prop) :
  (forall st i n, P st -> P (updateListenerCount st i n)) ->
  forall s ws data,
    P (storage s) ->
    P (storage (on_message s ws data)) /\ P (storage (on_close s ws)).
Proof.
  intros Hcount s ws data Hs.
  assert (Hann : forall s0 r, storage s0 = storage s -> P (storage (announce s0 r))).
  { intros s0 r H0. rewrite announce_storage, H0.
    destruct (getBroadcastByRoomId (storage s) r); [apply Hcount|]; exact Hs. }
  assert (Hsig : forall r, P (storage (broadcastToRoom s r data (Some ws)))).
  { intros r. rewrite broadcastToRoom_eq. exact Hs. }
  split.
  - destruct (msg_type data) eqn:Ht.
    + destruct (msg_roomId data) as [r|] eqn:Hr.
      * destruct (truthy r) eqn:Htr.
        -- rewrite (on_message_join s ws data r Ht Hr Htr).
           apply Hann. reflexivity.
        -- unfold on_message. rewrite Ht, Hr, Htr. exact Hs.
      * unfold on_message. rewrite Ht, Hr. exact Hs.
    + unfold on_message. rewrite Ht.
      destruct (ws_roomId s ws) as [r|]; [|exact Hs].
      destruct (truthy r && map_has String.eqb (rooms s) r); [|exact Hs].
      apply (Hann (set_rooms s (left_rooms s ws r)) r). reflexivity.
    + unfold on_message. rewrite Ht.
      destruct (ws_roomId s ws) as [r|]; [|exact Hs].
      destruct (truthy r); [apply Hsig|exact Hs].
    + unfold on_message. rewrite Ht.
      destruct (ws_roomId s ws) as [r|]; [|exact Hs].
      destruct (truthy r); [apply Hsig|exact Hs].
    + unfold on_message. rewrite Ht.
      destruct (ws_roomId s ws) as [r|]; [|exact Hs].
      destruct (truthy r); [apply Hsig|exact Hs].
    + unfold on_message. rewrite Ht. exact Hs.
  - unfold on_close.
    destruct (ws_roomId s ws) as [r|]; [|exact Hs].
    destruct (truthy r && map_has String.eqb (rooms s) r); [|exact Hs].
    apply (Hann (set_rooms s (left_rooms s ws r)) r). reflexivity.
Qed.

Lemma reachable_keys_below s : reachable s -> keys_below (storage s).
Proof.
  induction 1 as [|s e _ IH].
  - intros k b [].
  - destruct e as [body now|idParam updates|ws|ws data|ws|ws]; simpl.
    + destruct body as [body|]; [|exact IH].
      exact (keys_below_create (storage s) body now IH).
    + destruct idParam as [k|]; [|exact IH].
      assert (H := keys_below_updateBroadcast (storage s) k updates IH).
      unfold patch_broadcast.
      destruct (updateBroadcast (storage s) k updates) as [[b|] st']; exact H.
    + destruct (ws_readyState s ws); exact IH.
    + destruct (is_open (ws_readyState s ws)); [|exact IH].
      exact (proj1 (handlers_keep keys_below keys_below_updateListenerCount
                      s ws data IH)).
    + destruct (is_open (ws_readyState s ws)); exact IH.
    + assert (H := proj2 (handlers_keep keys_below keys_below_updateListenerCount
                            (set_ws_readyState s ws CLOSED) ws
                            (mkMessage LeaveRoom None None None) IH)).
      destruct (ws_readyState s ws); try exact IH; exact H.
Qed.

(** With the counter above the keys, creation writes after the records
    held. *)
Lemma createBroadcast_values st body now :
  keys_below st ->
  map_values (broadcasts (snd (createBroadcast st body now)))
  = map_values (broadcasts st) ++ [fst (createBroadcast st body now)].
Proof.
  intros Hkb. simpl.
  rewrite (map_set_absent Z.eqb).
  - unfold map_values. rewrite map_app. reflexivity.
  - destruct (map_get Z.eqb (broadcasts st) (currentBroadcastId st)) as [b|] eqn:E;
      [|reflexivity].
    apply (map_get_In Z.eqb Z.eqb_eq) in E. assert (H := Hkb _ _ E). lia.
Qed.

(** ** The registry: what creation adds *)

Lemma createBroadcast_appends st body now :
  registry_ok st ->
  let created := fst (createBroadcast st body now) in
  let st' := snd (createBroadcast st body now) in
  getBroadcast st (id created) = None /\
  (forall b, In b (map_values (broadcasts st)) -> id b < id created) /\
  map_values (broadcasts st') = map_values (broadcasts st) ++ [created] /\
  (forall k, k <> id created -> getBroadcast st' k = getBroadcast st k) /\
  registry_ok st'.
Proof.
  intros Hok created st'.
  assert (Hfresh := getBroadcast_absent_fresh st Hok).
  split; [exact Hfresh|]. split; [|split; [|split]].
  - intros b Hin. unfold map_values in Hin. apply in_map_iff in Hin.
    destruct Hin as [[k b'] [Hs Hin]]. simpl in Hs. subst b'.
    destruct (proj2 Hok _ _ Hin) as [Hb Hlt]. simpl. lia.
  - unfold st', created. simpl.
    rewrite (map_set_absent Z.eqb _ _ _ Hfresh).
    unfold map_values. rewrite map_app. reflexivity.
  - intros k Hk. unfold st', getBroadcast. simpl.
    apply (map_get_set_other Z.eqb Z.eqb_eq). exact Hk.
  - apply registry_ok_create. exact Hok.
Qed.

(** X1.  In a registry whose records are stored under their ids,
    creation gives the new record an id that no stored record has, puts
    it after the records held, and changes none of them. *)
Theorem create_appends_fresh_record st body now :
  registry_ok st ->
  let created := fst (createBroadcast st body now) in
  let st' := snd (createBroadcast st body now) in
  getBroadcast st (id created) = None /\
  (forall b, In b (map_values (broadcasts st)) -> id b < id created) /\
  map_values (broadcasts st') = map_values (broadcasts st) ++ [created] /\
  (forall k, k <> id created -> getBroadcast st' k = getBroadcast st k) /\
  registry_ok st'.
Proof. exact (createBroadcast_appends st body now). Qed.

Lemma create_appends_fresh_record_witness :
  registry_ok after_first_post /\
  let created := fst (createBroadcast after_first_post stopped_request 7) in
  let st' := snd (createBroadcast after_first_post stopped_request 7) in
  getBroadcast after_first_post (id created) = None /\
  (forall b, In b (map_values (broadcasts after_first_post)) -> id b < id created) /\
  map_values (broadcasts st')
    = map_values (broadcasts after_first_post) ++ [created] /\
  (forall k, k <> id created -> getBroadcast st' k = getBroadcast after_first_post k) /\
  registry_ok st'.
Proof.
  assert (H : registry_ok after_first_post).
  { apply (registry_ok_create newMemStorage abc123_request 0). apply registry_ok_new. }
  split; [exact H|].
  apply (create_appends_fresh_record after_first_post stopped_request 7 H).
Defined.

(** X2.  In every state the server can reach, after a create request
    the lookup of a room answers as before when the room already had a
    record (the oldest record of a room is the one found, the new one is
    not), answers the new record when the room had none and is the room
    of the request, and answers 404 otherwise. *)
Theorem room_lookup_after_post s body now r :
  reachable s ->
  get_broadcast_by_room (snd (post_broadcasts (storage s) (Some body) now)) r
  = match getBroadcastByRoomId (storage s) r with
    | Some old => Json old
    | None =>
        if (ins_roomId body =? r)%string
        then fst (post_broadcasts (storage s) (Some body) now)
        else Failure 404 "Broadcast not found"
    end.
Proof.
  intros Hreach.
  assert (Hval := createBroadcast_values (storage s) body now
                    (reachable_keys_below s Hreach)).
  unfold get_broadcast_by_room, post_broadcasts.
  destruct (createBroadcast (storage s) body now) as [created st'] eqn:E.
  simpl in Hval. simpl snd. simpl fst.
  unfold getBroadcastByRoomId. rewrite Hval, find_app_first.
  destruct (find (fun broadcast => (roomId broadcast =? r)%string)
                 (map_values (broadcasts (storage s)))); [reflexivity|].
  simpl.
  assert (Hroom : roomId created = ins_roomId body).
  { unfold createBroadcast in E. injection E as <- _. reflexivity. }
  rewrite Hroom. destruct (ins_roomId body =? r)%string; reflexivity.
Qed.

Lemma room_lookup_after_post_witness :
  reachable patched_then_joined /\
  get_broadcast_by_room
    (snd (post_broadcasts (storage patched_then_joined)
                          (Some stopped_request) 7)) "abc123"
  = match getBroadcastByRoomId (storage patched_then_joined) "abc123" with
    | Some old => Json old
    | None =>
        if (ins_roomId stopped_request =? "abc123")%string
        then fst (post_broadcasts (storage patched_then_joined)
                                  (Some stopped_request) 7)
        else Failure 404 "Broadcast not found"
    end.
Proof.
  assert (H : reachable patched_then_joined).
  { apply reachable_run. constructor. }
  split; [exact H|].
  apply (room_lookup_after_post patched_then_joined stopped_request 7 "abc123" H).
Defined.

(** ** The registry: updates *)

Lemma spread_idem b updates :
  spread (spread b updates) updates = spread b updates.
Proof.
  destruct updates as [i r t a c q d]. unfold spread. simpl.
  destruct i, r, t, a, c, q, d; reflexivity.
Qed.

Lemma spread_nothing b :
  spread b (mkPartialBroadcast None None None None None None None) = b.
Proof. destruct b. reflexivity. Qed.

(** X3.  A PATCH answers 404 and changes nothing when the path parameter
    is no number or no record is stored under it.  Otherwise it answers
    the stored record overlaid with the fields of the body; that record
    is then what the id yields, every other id yields what it did, and
    neither the keys nor the counter change. *)
Theorem patch_answers st k updates :
  patch_broadcast st None updates = (Failure 404 "Broadcast not found", st) /\
  match getBroadcast st k with
  | None =>
      patch_broadcast st (Some k) updates = (Failure 404 "Broadcast not found", st)
  | Some b =>
      let st' := snd (patch_broadcast st (Some k) updates) in
      fst (patch_broadcast st (Some k) updates) = Json (spread b updates) /\
      getBroadcast st' k = Some (spread b updates) /\
      (forall k', k' <> k -> getBroadcast st' k' = getBroadcast st k') /\
      map fst (broadcasts st') = map fst (broadcasts st) /\
      currentBroadcastId st' = currentBroadcastId st
  end.
Proof.
  split; [reflexivity|].
  unfold getBroadcast, patch_broadcast, updateBroadcast.
  destruct (map_get Z.eqb (broadcasts st) k) as [b|] eqn:E; [|reflexivity].
  simpl. split; [reflexivity|]. split; [|split; [|split]].
  - apply (map_get_set_same Z.eqb Z.eqb_eq).
  - intros k' Hk. apply (map_get_set_other Z.eqb Z.eqb_eq). exact Hk.
  - apply (map_set_keys Z.eqb). unfold map_has. rewrite E. reflexivity.
  - reflexivity.
Qed.

(** X4.  A PATCH is idempotent: sent a second time with the same id and
    body, it gives the same answer and leaves the registry as the first
    one left it. *)
Theorem patch_twice st idParam updates :
  let first := patch_broadcast st idParam updates in
  patch_broadcast (snd first) idParam updates = first.
Proof.
  destruct idParam as [k|]; [|reflexivity].
  unfold patch_broadcast, updateBroadcast.
  destruct (map_get Z.eqb (broadcasts st) k) as [b|] eqn:E; simpl.
  - rewrite (map_get_set_same Z.eqb Z.eqb_eq).
    rewrite (map_set_set Z.eqb Z.eqb_eq), spread_idem. reflexivity.
  - rewrite E. reflexivity.
Qed.

(** X5.  A PATCH with an empty body answers the stored record and
    changes nothing. *)
Theorem patch_empty_body st k b :
  getBroadcast st k = Some b ->
  patch_broadcast st (Some k) (mkPartialBroadcast None None None None None None None)
  = (Json b, st).
Proof.
  unfold getBroadcast, patch_broadcast, updateBroadcast. intros H.
  rewrite H. rewrite spread_nothing.
  rewrite (map_set_same_value Z.eqb Z.eqb_eq _ _ _ H).
  destruct st; reflexivity.
Qed.

Lemma patch_empty_body_witness :
  getBroadcast after_first_post 1
  = Some (fst (createBroadcast newMemStorage abc123_request 0)) /\
  patch_broadcast after_first_post (Some 1)
    (mkPartialBroadcast None None None None None None None)
  = (Json (fst (createBroadcast newMemStorage abc123_request 0)), after_first_post).
Proof.
  split; [reflexivity|].
  apply (patch_empty_body after_first_post 1); reflexivity.
Defined.

(** ** The registry: deletion *)

(** X6.  After [deleteBroadcast] the id yields nothing and every other
    id yields what it did; the counter is as it was; deleting the same id
    again reports [false] and changes nothing. *)
Theorem delete_then_lookup st k :
  let st' := snd (deleteBroadcast st k) in
  getBroadcast st' k = None /\
  (forall k', k' <> k -> getBroadcast st' k' = getBroadcast st k') /\
  currentBroadcastId st' = currentBroadcastId st /\
  deleteBroadcast st' k = (false, st').
Proof.
  unfold deleteBroadcast, getBroadcast. simpl.
  assert (Hnone := map_get_delete_same Z.eqb (broadcasts st) k).
  split; [exact Hnone|]. split; [|split; [reflexivity|]].
  - intros k' Hk. apply (map_get_delete_other Z.eqb Z.eqb_eq). exact Hk.
  - unfold map_has. rewrite Hnone.
    rewrite (map_delete_absent Z.eqb _ _ Hnone). reflexivity.
Qed.

Lemma registry_ok_delete st k :
  registry_ok st -> registry_ok (snd (deleteBroadcast st k)).
Proof.
  intros [Hnd Hid]. split; simpl.
  - apply (map_delete_keys_NoDup Z.eqb Z.eqb_eq). exact Hnd.
  - intros k' b Hin. apply (In_map_delete Z.eqb Z.eqb_eq) in Hin.
    exact (Hid _ _ (proj1 Hin)).
Qed.

(** X7.  The id of a deleted broadcast is not given out again: a
    broadcast created after the deletion gets a larger id, and the
    registry still holds every record under its own id. *)
Theorem deleted_id_not_reused st k b body now :
  registry_ok st -> getBroadcast st k = Some b ->
  let st1 := snd (deleteBroadcast st k) in
  fst (deleteBroadcast st k) = true /\
  k < id (fst (createBroadcast st1 body now)) /\
  getBroadcast (snd (createBroadcast st1 body now)) k = None /\
  registry_ok (snd (createBroadcast st1 body now)).
Proof.
  intros Hok Hget st1.
  assert (Hin := map_get_In Z.eqb Z.eqb_eq _ _ _ Hget).
  destruct (proj2 Hok _ _ Hin) as [_ Hlt].
  split; [|split; [|split]].
  - unfold deleteBroadcast, map_has. simpl.
    unfold getBroadcast in Hget. rewrite Hget. reflexivity.
  - simpl. exact Hlt.
  - unfold getBroadcast. simpl.
    rewrite (map_get_set_other Z.eqb Z.eqb_eq) by lia.
    apply map_get_delete_same.
  - apply registry_ok_create. apply registry_ok_delete. exact Hok.
Qed.

Lemma deleted_id_not_reused_witness :
  registry_ok after_first_post /\
  getBroadcast after_first_post 1
  = Some (fst (createBroadcast newMemStorage abc123_request 0)) /\
  let st1 := snd (deleteBroadcast after_first_post 1) in
  fst (deleteBroadcast after_first_post 1) = true /\
  1 < id (fst (createBroadcast st1 stopped_request 7)) /\
  getBroadcast (snd (createBroadcast st1 stopped_request 7)) 1 = None /\
  registry_ok (snd (createBroadcast st1 stopped_request 7)).
Proof.
  assert (H : registry_ok after_first_post).
  { apply (registry_ok_create newMemStorage abc123_request 0). apply registry_ok_new. }
  split; [exact H|]. split; [reflexivity|].
  apply (deleted_id_not_reused after_first_post 1
           (fst (createBroadcast newMemStorage abc123_request 0))
           stopped_request 7 H).
  reflexivity.
Defined.

(** ** The statistics route *)









(** ** The listeners of MemStorage *)

Lemma listeners_ok_new : listeners_ok newListenerStore.
Proof. split; [constructor|intros k l []]. Qed.

Lemma listeners_fresh ls :
  listeners_ok ls -> map_get Z.eqb (listeners ls) (currentListenerId ls) = None.
Proof.
  intros [_ Hid].
  destruct (map_get Z.eqb (listeners ls) (currentListenerId ls)) as [l|] eqn:E;
    [|reflexivity].
  apply (map_get_In Z.eqb Z.eqb_eq) in E. destruct (Hid _ _ E) as [_ Hlt]. lia.
Qed.

Lemma listeners_ok_add ls ins now :
  listeners_ok ls -> listeners_ok (snd (addListener ls ins now)).
Proof.
  intros Hok. assert (Hfresh := listeners_fresh ls Hok).
  destruct Hok as [Hnd Hid]. split; simpl.
  - rewrite (map_set_keys_fresh Z.eqb).
    + apply NoDup_snoc; [exact Hnd|].
      intros Hin. apply in_map_iff in Hin. destruct Hin as [[k l] [Hk Hin]].
      simpl in Hk. subst k. destruct (Hid _ _ Hin) as [_ Hlt]. lia.
    + unfold map_has. rewrite Hfresh. reflexivity.
  - intros k l Hin. apply In_map_set in Hin; [|exact Z.eqb_eq].
    destruct Hin as [[-> ->]|Hin].
    + simpl. split; [reflexivity|lia].
    + destruct (Hid _ _ Hin) as [H1 H2]. split; [exact H1|lia].
Qed.

(** X11.  [addListener] gives the listener an id above every id in use
    and puts it last.  The listeners of a broadcast are thereafter the
    ones it had, followed by the new one when the new one names that
    broadcast; a listener added without a broadcast is among the
    listeners of no broadcast. *)
Theorem listeners_after_add ls ins now broadcastId :
  listeners_ok ls ->
  let added := fst (addListener ls ins now) in
  let ls' := snd (addListener ls ins now) in
  (forall l, In l (map_values (listeners ls)) -> l_id l < l_id added) /\
  getListenersByBroadcast ls' broadcastId
  = getListenersByBroadcast ls broadcastId ++
    match il_broadcastId ins with
    | Some b => if b =? broadcastId then [added] else []
    | None => []
    end /\
  listeners_ok ls'.
Proof.
  intros Hok added ls'. assert (Hfresh := listeners_fresh ls Hok).
  split; [|split].
  - intros l Hin. unfold map_values in Hin. apply in_map_iff in Hin.
    destruct Hin as [[k l'] [Hs Hin]]. simpl in Hs. subst l'.
    destruct (proj2 Hok _ _ Hin) as [Hl Hlt]. simpl. lia.
  - unfold ls', added, getListenersByBroadcast. simpl.
    rewrite (map_set_absent Z.eqb _ _ _ Hfresh).
    unfold map_values. rewrite map_app, filter_app. simpl.
    destruct (il_broadcastId ins) as [b|]; [|reflexivity].
    destruct (b =? broadcastId); reflexivity.
  - apply listeners_ok_add. exact Hok.
Qed.

Lemma listeners_after_add_witness :
  let ls := snd (addListener
                   (snd (addListener newListenerStore
                           (mkInsertListener (Some 1) "k3x9") 5))
                   (mkInsertListener (Some 2) "p0q7") 6) in
  let ins := mkInsertListener (Some 1) "z8w1" in
  listeners_ok ls /\
  let added := fst (addListener ls ins 9) in
  let ls' := snd (addListener ls ins 9) in
  (forall l, In l (map_values (listeners ls)) -> l_id l < l_id added) /\
  getListenersByBroadcast ls' 1
  = getListenersByBroadcast ls 1 ++
    match il_broadcastId ins with
    | Some b => if b =? 1 then [added] else []
    | None => []
    end /\
  listeners_ok ls'.
Proof.
  cbv zeta.
  assert (H : listeners_ok
                (snd (addListener
                        (snd (addListener newListenerStore
                                (mkInsertListener (Some 1) "k3x9") 5))
                        (mkInsertListener (Some 2) "p0q7") 6))).
  { apply listeners_ok_add. apply listeners_ok_add. exact listeners_ok_new. }
  split; [exact H|].
  apply (listeners_after_add _ (mkInsertListener (Some 1) "z8w1") 9 1 H).
Defined.

Lemma map_values_split {V : Type} (entries : list (Z * V)) (l1 l2 : list V) x :
  map_values entries = l1 ++ x :: l2 ->
  exists before k after,
    entries = before ++ (k, x) :: after /\
    map_values before = l1 /\ map_values after = l2.
Proof.
  revert l1. induction entries as [|[k v] rest IH]; intros l1 H.
  - destruct l1; discriminate.
  - destruct l1 as [|y l1]; simpl in H.
    + injection H as -> H. exists [], k, rest. repeat split. exact H.
    + injection H as -> H. destruct (IH l1 H) as [before [k' [after [H1 [H2 H3]]]]].
      exists ((k, y) :: before), k', after. simpl. rewrite H1, H2, H3.
      repeat split.
Qed.

(** X12.  [removeListener] reports [false] and changes nothing exactly
    when no listener has the session id.  Otherwise it reports [true]
    and takes out one listener, the oldest one with that session id: a
    session that was added twice is still listed once afterwards. *)
Theorem remove_takes_oldest ls sessionId :
  listeners_ok ls ->
  let removed := fst (removeListener ls sessionId) in
  let ls' := snd (removeListener ls sessionId) in
  (removed = false ->
     ls' = ls /\
     forall l, In l (map_values (listeners ls)) -> l_sessionId l <> sessionId) /\
  (removed = true ->
     exists before l after,
       map_values (listeners ls) = before ++ l :: after /\
       l_sessionId l = sessionId /\
       (forall x, In x before -> l_sessionId x <> sessionId) /\
       map_values (listeners ls') = before ++ after) /\
  listeners_ok ls'.
Proof.
  intros Hok removed ls'. unfold removed, ls', removeListener.
  destruct (find (fun l => (l_sessionId l =? sessionId)%string)
                 (map_values (listeners ls))) as [l|] eqn:E; simpl.
  - destruct (find_split _ _ _ E) as [l1 [l2 [Hval [Hl Hbefore]]]].
    destruct (map_values_split _ _ _ _ Hval) as [before [k [after [He [H1 H2]]]]].
    assert (Hk : l_id l = k).
    { apply (proj2 Hok). rewrite He. apply in_elt. }
    assert (Hhas : map_has Z.eqb (listeners ls) (l_id l) = true).
    { unfold map_has. rewrite Hk.
      rewrite (In_map_get Z.eqb Z.eqb_eq (listeners ls) k l); [reflexivity| |].
      - exact (proj1 Hok).
      - rewrite He. apply in_elt. }
    rewrite Hhas. split; [discriminate|]. split.
    + intros _. exists l1, l, l2. split; [exact Hval|].
      split; [apply String.eqb_eq; exact Hl|]. split.
      * intros x Hx. apply String.eqb_neq. exact (Hbefore x Hx).
      * rewrite Hk, He. rewrite (map_delete_split Z.eqb Z.eqb_eq).
        -- unfold map_values in *. rewrite map_app, H1, H2. reflexivity.
        -- rewrite <- He. exact (proj1 Hok).
    + destruct Hok as [Hnd Hid]. split; simpl.
      * apply (map_delete_keys_NoDup Z.eqb Z.eqb_eq). exact Hnd.
      * intros k' l' Hin. apply (In_map_delete Z.eqb Z.eqb_eq) in Hin.
        exact (Hid _ _ (proj1 Hin)).
  - split; [|split; [discriminate|exact Hok]].
    intros _. split; [reflexivity|].
    intros l Hin. apply String.eqb_neq.
    exact (find_none _ _ E l Hin).
Qed.

Lemma remove_takes_oldest_witness :
  let ls := snd (addListener
                   (snd (addListener newListenerStore
                           (mkInsertListener (Some 1) "k3x9") 5))
                   (mkInsertListener (Some 1) "k3x9") 6) in
  listeners_ok ls /\
  let removed := fst (removeListener ls "k3x9") in
  let ls' := snd (removeListener ls "k3x9") in
  (removed = false ->
     ls' = ls /\
     forall l, In l (map_values (listeners ls)) -> l_sessionId l <> "k3x9") /\
  (removed = true ->
     exists before l after,
       map_values (listeners ls) = before ++ l :: after /\
       l_sessionId l = "k3x9" /\
       (forall x, In x before -> l_sessionId x <> "k3x9") /\
       map_values (listeners ls') = before ++ after) /\
  listeners_ok ls'.
Proof.
  cbv zeta.
  assert (H : listeners_ok
                (snd (addListener
                        (snd (addListener newListenerStore
                                (mkInsertListener (Some 1) "k3x9") 5))
                        (mkInsertListener (Some 1) "k3x9") 6))).
  { apply listeners_ok_add. apply listeners_ok_add. exact listeners_ok_new. }
  split; [exact H|].
  apply (remove_takes_oldest _ "k3x9" H).
Defined.

(** ** The handlers at their awaits *)

(** Run with nothing between its awaits, a handler does what
    [on_message] and [on_close] say. *)
Lemma handlers_run_alone s ws data :
  message_alone s ws data = on_message s ws data /\
  close_alone s ws = on_close s ws.
Proof.
  split.
  - unfold message_alone, start_message, on_message.
    destruct (msg_type data).
    + destruct (msg_roomId data) as [r|]; [|reflexivity].
      destruct (truthy r); [|reflexivity].
      cbv zeta. unfold finish, resume, room_read.
      match goal with
      | |- context [getBroadcastByRoomId ?st r] =>
          destruct (getBroadcastByRoomId st r)
      end; reflexivity.
    + destruct (ws_roomId s ws) as [r|] eqn:Hr; [|reflexivity].
      destruct (truthy r && map_has String.eqb (rooms s) r); [|reflexivity].
      cbv zeta. unfold finish, resume, room_read.
      match goal with
      | |- context [getBroadcastByRoomId ?st r] =>
          destruct (getBroadcastByRoomId st r)
      end; [|reflexivity].
      simpl ws_roomId. rewrite Hr. simpl ws_roomId. rewrite Hr. reflexivity.
    + destruct (ws_roomId s ws) as [r|]; [|reflexivity].
      destruct (truthy r); reflexivity.
    + destruct (ws_roomId s ws) as [r|]; [|reflexivity].
      destruct (truthy r); reflexivity.
    + destruct (ws_roomId s ws) as [r|]; [|reflexivity].
      destruct (truthy r); reflexivity.
    + reflexivity.
  - unfold close_alone, start_close, on_close.
    destruct (ws_roomId s ws) as [r|] eqn:Hr; [|reflexivity].
    destruct (truthy r && map_has String.eqb (rooms s) r); [|reflexivity].
    cbv zeta. unfold finish, resume, room_read.
    match goal with
    | |- context [getBroadcastByRoomId ?st r] =>
        destruct (getBroadcastByRoomId st r)
    end; [|reflexivity].
    simpl ws_roomId. rewrite Hr. simpl ws_roomId. rewrite Hr. reflexivity.
Qed.

(** ** The relay: who is sent what *)

(** X13.  However the handlers interleave at their awaits, every text
    the relay sends goes to a socket that is open and in the set of a
    room at the moment it is sent.  Up to its first await a message
    handler sends only signaling messages: the message itself to open
    members of the session room of the sender, never to the sender; the
    close handler sends nothing before its first await; a handler that
    goes on after an await sends only to open members of a room. *)
Theorem sends_go_to_open_members s :
  (forall ws data, exists out,
     sent (fst (start_message s ws data)) = sent s ++ out /\
     forall c m, In (c, m) out ->
       m = data /\ c <> ws /\ ws_readyState s c = OPEN /\
       exists r, ws_roomId s ws = Some r /\ In c (room_clients s r)) /\
  (forall ws, sent (fst (start_close s ws)) = sent s) /\
  (forall k, exists out,
     sent (fst (resume s k)) = sent s ++ out /\
     forall c m, In (c, m) out ->
       ws_readyState s c = OPEN /\ exists r, In c (room_clients s r)).
Proof.
  assert (Hnone : forall P : Handle -> WebSocketMessage -> Prop,
            exists out : list (Handle * WebSocketMessage),
              sent s = sent s ++ out /\ forall c m, In (c, m) out -> P c m).
  { intros P. exists []. split; [rewrite app_nil_r; reflexivity|].
    intros c m []. }
  split; [|split].
  - intros ws data. unfold start_message.
    assert (Hsig : exists out,
              sent (fst (match ws_roomId s ws with
                         | Some r =>
                             if truthy r
                             then (broadcastToRoom s r data (Some ws), None)
                             else (s, None)
                         | None => (s, @None Suspended)
                         end)) = sent s ++ out /\
              forall c m, In (c, m) out ->
                m = data /\ c <> ws /\ ws_readyState s c = OPEN /\
                exists r, ws_roomId s ws = Some r /\ In c (room_clients s r)).
    { destruct (ws_roomId s ws) as [r|]; [|apply Hnone].
      destruct (truthy r); [|apply Hnone].
      simpl fst. rewrite broadcastToRoom_eq. simpl sent.
      eexists. split; [reflexivity|].
      intros c m Hin. apply In_deliveries in Hin. destruct Hin as [-> Hin].
      apply In_recipients in Hin. destruct Hin as [Hmem [Hdiff Hopen]].
      simpl in Hdiff. apply negb_true_iff, Nat.eqb_neq in Hdiff.
      split; [reflexivity|]. split; [exact Hdiff|]. split; [exact Hopen|].
      exists r. split; [reflexivity|exact Hmem]. }
    destruct (msg_type data); try exact Hsig.
    + destruct (msg_roomId data) as [r|]; [|apply Hnone].
      destruct (truthy r); [|apply Hnone].
      cbv zeta.
      destruct (negb (map_has String.eqb (rooms (set_ws_roomId s ws r)) r));
        apply Hnone.
    + destruct (ws_roomId s ws) as [r|]; [|apply Hnone].
      destruct (truthy r && map_has String.eqb (rooms s) r); apply Hnone.
    + apply Hnone.
  - intros ws. unfold start_close.
    destruct (ws_roomId s ws) as [r|]; [|reflexivity].
    destruct (truthy r && map_has String.eqb (rooms s) r); reflexivity.
  - intros k. destruct k as [ws joined [b|]|ws joined b n]; simpl.
    + destruct (room_read s ws joined); apply Hnone.
    + apply Hnone.
    + destruct (room_read s ws joined) as [r|]; [|apply Hnone].
      simpl fst. rewrite broadcastToRoom_eq. simpl sent.
      eexists. split; [reflexivity|].
      intros c m Hin. apply In_deliveries in Hin. destruct Hin as [_ Hin].
      apply In_recipients in Hin. destruct Hin as [Hmem [_ Hopen]].
      split; [exact Hopen|]. exists r. exact Hmem.
Qed.

(** ** The relay and the registry *)

Lemma updateListenerCount_keeps_records st i n :
  map (fun entry => (fst entry, without_count (snd entry)))
      (broadcasts (updateListenerCount st i n))
  = map (fun entry => (fst entry, without_count (snd entry))) (broadcasts st) /\
  currentBroadcastId (updateListenerCount st i n) = currentBroadcastId st.
Proof.
  unfold updateListenerCount.
  destruct (map_get Z.eqb (broadcasts st) i) as [b|] eqn:E; [|split; reflexivity].
  simpl. split; [|reflexivity].
  destruct (map_set_present Z.eqb Z.eqb_eq _ i b (with_listenerCount b n) E)
    as [before [after [H1 H2]]].
  rewrite H2, H1, !map_app. reflexivity.
Qed.

Lemma announce_keeps_records s r :
  map (fun entry => (fst entry, without_count (snd entry)))
      (broadcasts (storage (announce s r)))
  = map (fun entry => (fst entry, without_count (snd entry)))
        (broadcasts (storage s)) /\
  currentBroadcastId (storage (announce s r)) = currentBroadcastId (storage s).
Proof.
  rewrite announce_storage.
  destruct (getBroadcastByRoomId (storage s) r); [|split; reflexivity].
  apply updateListenerCount_keeps_records.
Qed.

(** X14.  The two WebSocket handlers never create, delete or reorder a
    broadcast and never change a field of a record other than its
    [listenerCount]: the keys, the records without their count, and the
    id counter are after the handler what they were before. *)
Theorem handlers_change_counts_only s ws data :
  (map (fun entry => (fst entry, without_count (snd entry)))
       (broadcasts (storage (on_message s ws data)))
   = map (fun entry => (fst entry, without_count (snd entry)))
         (broadcasts (storage s)) /\
   currentBroadcastId (storage (on_message s ws data))
   = currentBroadcastId (storage s)) /\
  (map (fun entry => (fst entry, without_count (snd entry)))
       (broadcasts (storage (on_close s ws)))
   = map (fun entry => (fst entry, without_count (snd entry)))
         (broadcasts (storage s)) /\
   currentBroadcastId (storage (on_close s ws))
   = currentBroadcastId (storage s)).
Proof.
  split.
  - destruct (msg_type data) eqn:Ht.
    + destruct (msg_roomId data) as [r|] eqn:Hr.
      * destruct (truthy r) eqn:Htr.
        -- rewrite (on_message_join s ws data r Ht Hr Htr).
           exact (announce_keeps_records
                    (set_rooms (set_ws_roomId s ws r) (joined_rooms s ws r)) r).
        -- unfold on_message. rewrite Ht, Hr, Htr. split; reflexivity.
      * unfold on_message. rewrite Ht, Hr. split; reflexivity.
    + unfold on_message. rewrite Ht.
      destruct (ws_roomId s ws) as [r|]; [|split; reflexivity].
      destruct (truthy r && map_has String.eqb (rooms s) r); [|split; reflexivity].
      exact (announce_keeps_records (set_rooms s (left_rooms s ws r)) r).
    + unfold on_message. rewrite Ht.
      destruct (ws_roomId s ws) as [r|]; [|split; reflexivity].
      destruct (truthy r); [|split; reflexivity].
      rewrite broadcastToRoom_eq. split; reflexivity.
    + unfold on_message. rewrite Ht.
      destruct (ws_roomId s ws) as [r|]; [|split; reflexivity].
      destruct (truthy r); [|split; reflexivity].
      rewrite broadcastToRoom_eq. split; reflexivity.
    + unfold on_message. rewrite Ht.
      destruct (ws_roomId s ws) as [r|]; [|split; reflexivity].
      destruct (truthy r); [|split; reflexivity].
      rewrite broadcastToRoom_eq. split; reflexivity.
    + unfold on_message. rewrite Ht. split; reflexivity.
  - unfold on_close.
    destruct (ws_roomId s ws) as [r|]; [|split; reflexivity].
    destruct (truthy r && map_has String.eqb (rooms s) r); [|split; reflexivity].
    exact (announce_keeps_records (set_rooms s (left_rooms s ws r)) r).
Qed.

(** ** The relay: rooms *)

Lemma on_message_other_rooms s ws data r' :
  room_of_message s ws data <> Some r' ->
  room_clients (on_message s ws data) r' = room_clients s r'.
Proof.
  unfold room_of_message. intros Hroom.
  assert (Hsig : forall r, room_clients (broadcastToRoom s r data (Some ws)) r'
                           = room_clients s r').
  { intros r. rewrite broadcastToRoom_eq. reflexivity. }
  destruct (msg_type data) eqn:Ht.
  - destruct (msg_roomId data) as [r|] eqn:Hr.
    + destruct (truthy r) eqn:Htr.
      * rewrite (on_message_join s ws data r Ht Hr Htr), announce_room_clients.
        unfold joined_rooms. apply room_clients_other.
        intros ->. apply Hroom. reflexivity.
      * unfold on_message. rewrite Ht, Hr, Htr. reflexivity.
    + unfold on_message. rewrite Ht, Hr. reflexivity.
  - unfold on_message. rewrite Ht.
    destruct (ws_roomId s ws) as [r|]; [|reflexivity].
    destruct (truthy r && map_has String.eqb (rooms s) r); [|reflexivity].
    fold (left_rooms s ws r). fold (announce (set_rooms s (left_rooms s ws r)) r).
    rewrite announce_room_clients. unfold left_rooms. apply room_clients_other.
    intros ->. apply Hroom. reflexivity.
  - unfold on_message. rewrite Ht.
    destruct (ws_roomId s ws) as [r|]; [|reflexivity].
    destruct (truthy r); [apply Hsig|reflexivity].
  - unfold on_message. rewrite Ht.
    destruct (ws_roomId s ws) as [r|]; [|reflexivity].
    destruct (truthy r); [apply Hsig|reflexivity].
  - unfold on_message. rewrite Ht.
    destruct (ws_roomId s ws) as [r|]; [|reflexivity].
    destruct (truthy r); [apply Hsig|reflexivity].
  - unfold on_message. rewrite Ht. reflexivity.
Qed.

Lemma on_close_other_rooms s ws r' :
  ws_roomId s ws <> Some r' ->
  room_clients (on_close s ws) r' = room_clients s r'.
Proof.
  intros Hroom. unfold on_close.
  destruct (ws_roomId s ws) as [r|]; [|reflexivity].
  destruct (truthy r && map_has String.eqb (rooms s) r); [|reflexivity].
  fold (left_rooms s ws r). fold (announce (set_rooms s (left_rooms s ws r)) r).
  rewrite announce_room_clients. unfold left_rooms. apply room_clients_other.
  intros ->. apply Hroom. reflexivity.
Qed.

(** X15.  An event changes the membership of at most one room, the room
    it is about: the set of every other room is after the event what it
    was before. *)
Theorem other_rooms_untouched s e r' :
  room_of_event s e <> Some r' ->
  room_clients (step s e) r' = room_clients s r'.
Proof.
  destruct e as [body now|idParam updates|ws|ws data|ws|ws]; simpl; intros Hroom.
  - reflexivity.
  - reflexivity.
  - destruct (ws_readyState s ws); reflexivity.
  - destruct (is_open (ws_readyState s ws)); [|reflexivity].
    apply on_message_other_rooms. exact Hroom.
  - destruct (is_open (ws_readyState s ws)); reflexivity.
  - destruct (ws_readyState s ws); try reflexivity;
      apply (on_close_other_rooms (set_ws_readyState s ws CLOSED) ws r');
      exact Hroom.
Qed.

Lemma other_rooms_untouched_witness :
  room_of_event lobby (WsMessage 2%nat (join_room "abc123")) <> Some "lobby" /\
  room_clients (step lobby (WsMessage 2%nat (join_room "abc123"))) "lobby"
  = room_clients lobby "lobby".
Proof.
  split; [discriminate|].
  apply (other_rooms_untouched lobby (WsMessage 2%nat (join_room "abc123")) "lobby").
  discriminate.
Defined.

Lemma step_keeps_rooms s e r :
  map_has String.eqb (rooms s) r = true ->
  map_has String.eqb (rooms (step s e)) r = true.
Proof.
  intros Hhas.
  assert (Hann : forall s0 r0 l,
            rooms s0 = map_set String.eqb (rooms s) r0 l ->
            map_has String.eqb (rooms (announce s0 r0)) r = true).
  { intros s0 r0 l H0. rewrite announce_rooms, H0.
    apply (map_has_set String.eqb String.eqb_eq). exact Hhas. }
  destruct e as [body now|idParam updates|ws|ws data|ws|ws]; simpl.
  - exact Hhas.
  - exact Hhas.
  - destruct (ws_readyState s ws); exact Hhas.
  - destruct (is_open (ws_readyState s ws)); [|exact Hhas].
    destruct (msg_type data) eqn:Ht.
    + destruct (msg_roomId data) as [r0|] eqn:Hr.
      * destruct (truthy r0) eqn:Htr.
        -- rewrite (on_message_join s ws data r0 Ht Hr Htr).
           apply (Hann _ r0 (set_add (room_clients s r0) ws)). reflexivity.
        -- unfold on_message. rewrite Ht, Hr, Htr. exact Hhas.
      * unfold on_message. rewrite Ht, Hr. exact Hhas.
    + unfold on_message. rewrite Ht.
      destruct (ws_roomId s ws) as [r0|]; [|exact Hhas].
      destruct (truthy r0 && map_has String.eqb (rooms s) r0); [|exact Hhas].
      apply (Hann (set_rooms s (left_rooms s ws r0)) r0
                  (set_delete (room_clients s r0) ws)). reflexivity.
    + unfold on_message. rewrite Ht.
      destruct (ws_roomId s ws) as [r0|]; [|exact Hhas].
      destruct (truthy r0); [|exact Hhas].
      rewrite broadcastToRoom_eq. exact Hhas.
    + unfold on_message. rewrite Ht.
      destruct (ws_roomId s ws) as [r0|]; [|exact Hhas].
      destruct (truthy r0); [|exact Hhas].
      rewrite broadcastToRoom_eq. exact Hhas.
    + unfold on_message. rewrite Ht.
      destruct (ws_roomId s ws) as [r0|]; [|exact Hhas].
      destruct (truthy r0); [|exact Hhas].
      rewrite broadcastToRoom_eq. exact Hhas.
    + unfold on_message. rewrite Ht. exact Hhas.
  - destruct (is_open (ws_readyState s ws)); exact Hhas.
  - assert (Hclose : map_has String.eqb
                       (rooms (on_close (set_ws_readyState s ws CLOSED) ws)) r
                     = true).
    { unfold on_close. simpl ws_roomId. simpl rooms.
      destruct (ws_roomId s ws) as [r0|]; [|exact Hhas].
      destruct (truthy r0 && map_has String.eqb (rooms s) r0); [|exact Hhas].
      apply (Hann (set_rooms (set_ws_readyState s ws CLOSED)
                             (left_rooms s ws r0)) r0
                  (set_delete (room_clients s r0) ws)). reflexivity. }
    destruct (ws_readyState s ws); try exact Hhas; exact Hclose.
Qed.

(** X16.  The entry of a room is never removed from [rooms]: a room that
    has an entry keeps it through every sequence of events, also when
    its last member has left or closed. *)
Theorem room_entries_stay s es r :
  map_has String.eqb (rooms s) r = true ->
  map_has String.eqb (rooms (run s es)) r = true.
Proof.
  revert s. induction es as [|e es IH]; intros s Hhas; simpl.
  - exact Hhas.
  - apply IH. apply step_keeps_rooms. exact Hhas.
Qed.

Lemma room_entries_stay_witness :
  map_has String.eqb (rooms two_joined) "abc123" = true /\
  map_has String.eqb
    (rooms (run two_joined
              [WsMessage 2%nat (leave_room "abc123"); WsClose 1%nat]))
    "abc123" = true.
Proof.
  split; [reflexivity|].
  apply (room_entries_stay two_joined
           [WsMessage 2%nat (leave_room "abc123"); WsClose 1%nat] "abc123").
  reflexivity.
Defined.

Lemma set_delete_absent l ws : ~ In ws l -> set_delete l ws = l.
Proof.
  intros Hnot. unfold set_delete. induction l as [|c l IH]; simpl; [reflexivity|].
  destruct (Nat.eqb c ws) eqn:E.
  - apply Nat.eqb_eq in E. exfalso. apply Hnot. left. exact E.
  - simpl. rewrite IH; [reflexivity|]. intros H. apply Hnot. right. exact H.
Qed.

Lemma set_delete_added l ws : ~ In ws l -> set_delete (set_add l ws) ws = l.
Proof.
  intros Hnot. unfold set_add.
  destruct (set_has l ws) eqn:E.
  - apply set_has_In in E. contradiction.
  - unfold set_delete. rewrite filter_app. simpl. rewrite Nat.eqb_refl. simpl.
    rewrite app_nil_r. apply set_delete_absent. exact Hnot.
Qed.

(** X17.  Join and leave undo each other on the membership table: when a
    connection that is not in room [r] joins [r] and then sends
    [leave-room] (whatever room id that message carries), every room
    has the members it had, in the order it had them. *)
Theorem join_then_leave_restores s ws r data :
  r <> "" -> ~ In ws (room_clients s r) -> msg_type data = LeaveRoom ->
  let s' := on_message (on_message s ws (join_room r)) ws data in
  forall r', room_clients s' r' = room_clients s r'.
Proof.
  intros Hne Hnot Ht s' r'. apply truthy_true in Hne. unfold s'.
  set (s1 := on_message s ws (join_room r)).
  assert (Hs1 : s1 = announce (set_rooms (set_ws_roomId s ws r)
                                         (joined_rooms s ws r)) r).
  { apply on_message_join; [reflexivity|reflexivity|exact Hne]. }
  assert (Hroom1 : ws_roomId s1 ws = Some r).
  { rewrite Hs1, announce_ws_roomId. simpl. rewrite Nat.eqb_refl. reflexivity. }
  assert (Hhas1 : map_has String.eqb (rooms s1) r = true).
  { rewrite Hs1, announce_rooms. simpl. unfold joined_rooms.
    apply (map_has_set_same String.eqb String.eqb_eq). }
  rewrite (on_message_leave s1 ws data r Ht Hroom1 Hne Hhas1).
  rewrite announce_room_clients.
  assert (Hcl1 : forall x, room_clients s1 x
                           = room_clients (set_rooms (set_ws_roomId s ws r)
                                                     (joined_rooms s ws r)) x).
  { intros x. rewrite Hs1. apply announce_room_clients. }
  destruct (String.eqb_spec r' r) as [->|Hr'].
  - rewrite room_clients_left, Hcl1, room_clients_joined.
    apply set_delete_added. exact Hnot.
  - unfold left_rooms. rewrite room_clients_other by exact Hr'.
    rewrite Hcl1. unfold joined_rooms. apply room_clients_other. exact Hr'.
Qed.

Lemma join_then_leave_restores_witness :
  "abc123" <> "" /\ ~ In 2%nat (room_clients once_joined "abc123") /\
  msg_type (leave_room "elsewhere") = LeaveRoom /\
  let s' := on_message (on_message once_joined 2%nat (join_room "abc123"))
                       2%nat (leave_room "elsewhere") in
  forall r', room_clients s' r' = room_clients once_joined r'.
Proof.
  assert (Hnot : ~ In 2%nat (room_clients once_joined "abc123")).
  { vm_compute. intros [H|[]]. discriminate H. }
  split; [discriminate|]. split; [exact Hnot|]. split; [reflexivity|].
  apply (join_then_leave_restores once_joined 2%nat "abc123" (leave_room "elsewhere")).
  - discriminate.
  - exact Hnot.
  - reflexivity.
Defined.

(** ** One room per connection, when joins are exclusive *)

Lemma in_other_room_false s ws r r' :
  in_other_room s ws r = false -> In ws (room_clients s r') -> r' = r.
Proof.
  unfold in_other_room, room_clients. intros Hex Hin.
  destruct (map_get String.eqb (rooms s) r') as [l|] eqn:E; [|destruct Hin].
  simpl in Hin. apply (map_get_In String.eqb String.eqb_eq) in E.
  destruct (String.eqb_spec r' r) as [Heq|Hne]; [exact Heq|].
  exfalso.
  assert (Htrue : existsb (fun entry => negb (fst entry =? r)%string
                                        && set_has (snd entry) ws) (rooms s) = true).
  { apply existsb_exists. exists (r', l). split; [exact E|]. simpl.
    apply String.eqb_neq in Hne. rewrite Hne. simpl.
    apply set_has_In. exact Hin. }
  congruence.
Qed.

Lemma members_ok_same s s' :
  rooms s' = rooms s -> ws_roomId s' = ws_roomId s ->
  ws_readyState s' = ws_readyState s -> members_ok s -> members_ok s'.
Proof.
  intros Hr Hw Hs [Ha Hb].
  assert (Hcl : forall r, room_clients s' r = room_clients s r).
  { intros r. unfold room_clients. rewrite Hr. reflexivity. }
  split.
  - intros ws r. rewrite Hcl, Hw. apply Ha.
  - intros ws r. rewrite Hcl, Hs. apply Hb.
Qed.

(** The members after a leave or a closure were members before. *)
Lemma members_ok_leave s s0 ws r :
  rooms s0 = rooms s -> ws_roomId s0 = ws_roomId s ->
  (forall c, c <> ws -> ws_readyState s0 c = CLOSED -> ws_readyState s c = CLOSED) ->
  (ws_readyState s0 ws = CLOSED -> ws_readyState s ws <> CLOSED ->
   ws_roomId s ws = Some r) ->
  members_ok s ->
  members_ok (announce (set_rooms s0 (left_rooms s0 ws r)) r).
Proof.
  intros Hr Hw Hothers Hself [Ha Hb].
  assert (Hcl : forall x, room_clients s0 x = room_clients s x).
  { intros x. unfold room_clients. rewrite Hr. reflexivity. }
  assert (Hsub : forall c x,
            In c (room_clients (announce (set_rooms s0 (left_rooms s0 ws r)) r) x) ->
            In c (room_clients s x) /\ (x = r -> c <> ws)).
  { intros c x. rewrite announce_room_clients.
    destruct (String.eqb_spec x r) as [->|Hx].
    - rewrite room_clients_left, Hcl. intros H. apply set_delete_In in H.
      split; [exact (proj1 H)|]. intros _. exact (proj2 H).
    - unfold left_rooms. rewrite room_clients_other by exact Hx. rewrite Hcl.
      intros H. split; [exact H|]. intros Heq. contradiction. }
  split.
  - intros c x Hin. rewrite announce_ws_roomId. simpl. rewrite Hw.
    apply Ha. exact (proj1 (Hsub c x Hin)).
  - intros c x. rewrite announce_ws_readyState. simpl. intros Hclosed Hin.
    destruct (Hsub c x Hin) as [Hmem Hne].
    destruct (Nat.eq_dec c ws) as [->|Hc].
    + assert (Hcase : ws_readyState s ws = CLOSED \/ ws_readyState s ws <> CLOSED).
      { destruct (ws_readyState s ws); [right|right|right|left];
          try discriminate; reflexivity. }
      destruct Hcase as [Hrs|Hrs]; [exact (Hb ws x Hrs Hmem)|].
      assert (Hroom : ws_roomId s ws = Some r) by (apply Hself; assumption).
      assert (Hx : x = r) by (assert (H' := Ha ws x Hmem); congruence).
      exact (Hne Hx eq_refl).
    + exact (Hb c x (Hothers c Hc Hclosed) Hmem).
Qed.

Lemma members_ok_on_message s ws data :
  relay_ok s -> members_ok s ->
  ws_readyState s ws = OPEN ->
  exclusive_join s (WsMessage ws data) = true ->
  members_ok (on_message s ws data).
Proof.
  intros Hok Hm Hopen Hex.
  assert (Hsig : forall r, members_ok (broadcastToRoom s r data (Some ws))).
  { intros r. rewrite broadcastToRoom_eq.
    apply members_ok_same with (s := s); auto. }
  assert (Hleave : forall r, members_ok (announce (set_rooms s (left_rooms s ws r)) r)).
  { intros r. apply members_ok_leave with (s := s); auto.
    intros Hc. rewrite Hopen in Hc. discriminate. }
  destruct (msg_type data) eqn:Ht.
  - destruct (msg_roomId data) as [r|] eqn:Hr.
    + destruct (truthy r) eqn:Htr.
      * rewrite (on_message_join s ws data r Ht Hr Htr).
        simpl in Hex. rewrite Ht, Hr in Hex. apply negb_true_iff in Hex.
        destruct Hm as [Ha Hb].
        assert (Hmem : forall c x,
                  In c (room_clients
                          (announce (set_rooms (set_ws_roomId s ws r)
                                               (joined_rooms s ws r)) r) x) ->
                  (x = r /\ c = ws) \/ (c <> ws /\ In c (room_clients s x))).
        { intros c x. rewrite announce_room_clients.
          destruct (String.eqb_spec x r) as [->|Hx].
          - rewrite room_clients_joined. intros H. apply set_add_In in H.
            destruct (Nat.eq_dec c ws) as [->|Hc]; [left; split; reflexivity|].
            right. split; [exact Hc|]. destruct H as [H|H]; [contradiction|exact H].
          - unfold joined_rooms. rewrite room_clients_other by exact Hx.
            intros H. right. split; [|exact H].
            intros ->. apply Hx. exact (in_other_room_false s ws r x Hex H). }
        split.
        -- intros c x Hin. rewrite announce_ws_roomId. simpl.
           destruct (Hmem c x Hin) as [[-> ->]|[Hc Hold]].
           ++ rewrite Nat.eqb_refl. reflexivity.
           ++ apply Nat.eqb_neq in Hc. rewrite Hc. exact (Ha c x Hold).
        -- intros c x. rewrite announce_ws_readyState. simpl. intros Hclosed Hin.
           destruct (Hmem c x Hin) as [[_ ->]|[_ Hold]].
           ++ rewrite Hopen in Hclosed. discriminate.
           ++ exact (Hb c x Hclosed Hold).
      * unfold on_message. rewrite Ht, Hr, Htr. exact Hm.
    + unfold on_message. rewrite Ht, Hr. exact Hm.
  - unfold on_message. rewrite Ht.
    destruct (ws_roomId s ws) as [r|]; [|exact Hm].
    destruct (truthy r && map_has String.eqb (rooms s) r); [|exact Hm].
    apply Hleave.
  - unfold on_message. rewrite Ht.
    destruct (ws_roomId s ws) as [r|]; [|exact Hm].
    destruct (truthy r); [apply Hsig|exact Hm].
  - unfold on_message. rewrite Ht.
    destruct (ws_roomId s ws) as [r|]; [|exact Hm].
    destruct (truthy r); [apply Hsig|exact Hm].
  - unfold on_message. rewrite Ht.
    destruct (ws_roomId s ws) as [r|]; [|exact Hm].
    destruct (truthy r); [apply Hsig|exact Hm].
  - unfold on_message. rewrite Ht. exact Hm.
Qed.

Lemma members_ok_on_close s ws :
  relay_ok s -> members_ok s -> ws_readyState s ws <> CLOSED ->
  members_ok (on_close (set_ws_readyState s ws CLOSED) ws).
Proof.
  intros Hok Hm Hrs. unfold on_close. simpl ws_roomId. simpl rooms.
  assert (Hothers : forall c, c <> ws ->
            ws_readyState (set_ws_readyState s ws CLOSED) c = CLOSED ->
            ws_readyState s c = CLOSED).
  { intros c Hc. simpl. apply Nat.eqb_neq in Hc. rewrite Hc. auto. }
  destruct (ws_roomId s ws) as [r|] eqn:Hr.
  - destruct (proj1 Hok ws r Hr) as [Htr Hhas]. rewrite Htr, Hhas. simpl.
    apply (members_ok_leave s (set_ws_readyState s ws CLOSED) ws r); auto.
  - destruct Hm as [Ha Hb]. split.
    + exact Ha.
    + intros c x Hclosed Hin.
      destruct (Nat.eq_dec c ws) as [->|Hc].
      * assert (H' := Ha ws x Hin). congruence.
      * exact (Hb c x (Hothers c Hc Hclosed) Hin).
Qed.

Lemma members_ok_step s e :
  relay_ok s -> members_ok s -> exclusive_join s e = true ->
  members_ok (step s e).
Proof.
  intros Hok Hm Hex.
  assert (Hready : forall ws st, st <> CLOSED ->
            members_ok (set_ws_readyState s ws st)).
  { intros ws st Hst. destruct Hm as [Ha Hb]. split; [exact Ha|].
    intros c x. simpl. destruct (Nat.eqb c ws); [congruence|apply Hb]. }
  destruct e as [body now|idParam updates|ws|ws data|ws|ws]; simpl.
  - apply members_ok_same with (s := s); auto.
  - apply members_ok_same with (s := s); auto.
  - destruct (ws_readyState s ws); try exact Hm. apply Hready. discriminate.
  - destruct (ws_readyState s ws) eqn:Hrs; simpl; try exact Hm.
    apply members_ok_on_message; assumption.
  - destruct (is_open (ws_readyState s ws)); [|exact Hm].
    apply Hready. discriminate.
  - destruct (ws_readyState s ws) eqn:Hrs; try exact Hm;
      apply members_ok_on_close; try assumption; rewrite Hrs; discriminate.
Qed.

Lemma members_ok_run es : forall s,
  relay_ok s -> members_ok s -> exclusive_joins s es = true ->
  members_ok (run s es).
Proof.
  induction es as [|e es IH]; intros s Hok Hm Hex; simpl.
  - exact Hm.
  - simpl in Hex. apply andb_true_iff in Hex. destruct Hex as [He Hes].
    apply IH; [apply relay_ok_step; exact Hok| |exact Hes].
    apply members_ok_step; assumption.
Qed.

(** X18.  As long as no connection sends [join-room] while it is in the
    set of another room, the membership table is what the session
    fields say: every member of a room has that room as its session
    room, so no connection is in two rooms, and a socket that has closed
    is in no room. *)
Theorem one_room_when_joins_are_exclusive es :
  exclusive_joins initial es = true ->
  let s := run initial es in
  (forall ws r, In ws (room_clients s r) -> ws_roomId s ws = Some r) /\
  (forall ws r1 r2,
     In ws (room_clients s r1) -> In ws (room_clients s r2) -> r1 = r2) /\
  (forall ws r, ws_readyState s ws = CLOSED -> ~ In ws (room_clients s r)).
Proof.
  intros Hex s.
  assert (Hm : members_ok s).
  { apply members_ok_run; [apply relay_ok_initial| |exact Hex].
    split; intros ws r; simpl; [intros []|intros _ []]. }
  destruct Hm as [Ha Hb]. split; [exact Ha|]. split; [|exact Hb].
  intros ws r1 r2 H1 H2.
  assert (E1 := Ha ws r1 H1). assert (E2 := Ha ws r2 H2). congruence.
Qed.

Lemma one_room_when_joins_are_exclusive_witness :
  exclusive_joins initial room_hopper = true /\
  let s := run initial room_hopper in
  (forall ws r, In ws (room_clients s r) -> ws_roomId s ws = Some r) /\
  (forall ws r1 r2,
     In ws (room_clients s r1) -> In ws (room_clients s r2) -> r1 = r2) /\
  (forall ws r, ws_readyState s ws = CLOSED -> ~ In ws (room_clients s r)).
Proof.
  split; [reflexivity|].
  apply (one_room_when_joins_are_exclusive room_hopper). reflexivity.
Defined.

(** ** The listener count, when no PATCH overwrites an id *)







(** The inner premises hold for the join of the state above. *)
Example count_follows_membership_join :
  signaling (msg_type (join_room "abc123")) = false /\
  room_of_message (run initial stopped_broadcast) 1%nat (join_room "abc123")
  = Some "abc123" /\
  getBroadcastByRoomId
    (storage (message_alone (run initial stopped_broadcast) 1%nat
                            (join_room "abc123"))) "abc123"
  = Some (mkBroadcast 1 "abc123" "Morning show" false 1 "high" 0).
Proof. repeat split. Qed.

(** ** The announcement of a join and of a leave *)

Lemma recipients_everyone s r :
  recipients s r None
  = filter (fun c => is_open (ws_readyState s c)) (room_clients s r).
Proof. reflexivity. Qed.

Lemma on_message_join_announces s ws data r b :
  msg_type data = JoinRoom -> msg_roomId data = Some r -> r <> "" ->
  getBroadcastByRoomId (storage s) r = Some b ->
  let s' := on_message s ws data in
  room_size s' r
  = room_size s r + (if set_has (room_clients s r) ws then 0 else 1) /\
  sent s'
  = sent s ++ deliveries (room_update (room_size s' r) (isActive b))
                (filter (fun c => is_open (ws_readyState s c))
                        (room_clients s' r)) /\
  (ws_readyState s ws = OPEN ->
   In (ws, room_update (room_size s' r) (isActive b)) (sent s')).
Proof.
  intros Ht Hr Hne Hb s'. apply truthy_true in Hne.
  assert (Hs' : s' = announce (set_rooms (set_ws_roomId s ws r)
                                         (joined_rooms s ws r)) r).
  { apply on_message_join; assumption. }
  assert (Hcl : room_clients s' r = set_add (room_clients s r) ws).
  { rewrite Hs', announce_room_clients. apply room_clients_joined. }
  assert (Hsent : sent s'
            = sent s ++ deliveries (room_update (room_size s' r) (isActive b))
                          (filter (fun c => is_open (ws_readyState s c))
                                  (room_clients s' r))).
  { unfold room_size. rewrite Hcl. rewrite Hs', announce_sent. simpl storage.
    rewrite Hb. simpl sent. rewrite recipients_everyone.
    unfold room_size. rewrite room_clients_joined. reflexivity. }
  split; [|split; [exact Hsent|]].
  - unfold room_size. rewrite Hcl. unfold set_add.
    destruct (set_has (room_clients s r) ws); [lia|].
    rewrite length_app. simpl. lia.
  - intros Hopen. rewrite Hsent. apply in_or_app. right.
    apply In_deliveries. split; [reflexivity|].
    apply filter_In. split.
    + rewrite Hcl. apply set_add_In. left; reflexivity.
    + rewrite Hopen. reflexivity.
Qed.

(** X20.  When the handler of a [join-room] for a room that has a
    broadcast runs with no other handler between its awaits, the room
    grows by one unless the connection was in it, and every member of
    the room whose socket is open, the joiner included, is sent one
    [room-update] with the new size of the room (the joiner and the
    broadcaster count) and the active flag of the record. *)
Theorem join_announces_to_room s ws data r b :
  msg_type data = JoinRoom -> msg_roomId data = Some r -> r <> "" ->
  getBroadcastByRoomId (storage s) r = Some b ->
  let s' := message_alone s ws data in
  room_size s' r
  = room_size s r + (if set_has (room_clients s r) ws then 0 else 1) /\
  sent s'
  = sent s ++ deliveries (room_update (room_size s' r) (isActive b))
                (filter (fun c => is_open (ws_readyState s c))
                        (room_clients s' r)) /\
  (ws_readyState s ws = OPEN ->
   In (ws, room_update (room_size s' r) (isActive b)) (sent s')).
Proof.
  intros Ht Hr Hne Hb. rewrite (proj1 (handlers_run_alone s ws data)).
  apply on_message_join_announces; assumption.
Qed.

Lemma join_announces_to_room_witness :
  msg_type (join_room "abc123") = JoinRoom /\
  msg_roomId (join_room "abc123") = Some "abc123" /\
  "abc123" <> "" /\
  getBroadcastByRoomId (storage once_joined) "abc123"
  = Some (mkBroadcast 1 "abc123" "Morning show" true 1 "high" 0) /\
  let s' := message_alone once_joined 2%nat (join_room "abc123") in
  room_size s' "abc123"
  = room_size once_joined "abc123"
    + (if set_has (room_clients once_joined "abc123") 2%nat then 0 else 1) /\
  sent s'
  = sent once_joined
    ++ deliveries (room_update (room_size s' "abc123") (isActive
                     (mkBroadcast 1 "abc123" "Morning show" true 1 "high" 0)))
         (filter (fun c => is_open (ws_readyState once_joined c))
                 (room_clients s' "abc123")) /\
  (ws_readyState once_joined 2%nat = OPEN ->
   In (2%nat, room_update (room_size s' "abc123") (isActive
                 (mkBroadcast 1 "abc123" "Morning show" true 1 "high" 0)))
      (sent s')).
Proof.
  split; [reflexivity|]. split; [reflexivity|]. split; [discriminate|].
  split; [reflexivity|].
  apply (join_announces_to_room once_joined 2%nat (join_room "abc123") "abc123"
           (mkBroadcast 1 "abc123" "Morning show" true 1 "high" 0)).
  - reflexivity.
  - reflexivity.
  - discriminate.
  - reflexivity.
Defined.

Lemma set_delete_length l ws :
  NoDup l -> In ws l ->
  Z.of_nat (List.length (set_delete l ws)) = Z.of_nat (List.length l) - 1.
Proof.
  intros Hnd Hin. induction Hnd as [|c l Hc Hnd IH]; [destruct Hin|].
  unfold set_delete. cbn [filter]. fold (set_delete l ws).
  destruct (Nat.eqb c ws) eqn:E; cbn [negb List.length].
  - apply Nat.eqb_eq in E. subst c.
    rewrite (set_delete_absent l ws Hc). lia.
  - destruct Hin as [Hin|Hin].
    + apply Nat.eqb_neq in E. contradiction.
    + rewrite !Nat2Z.inj_succ, (IH Hin). lia.
Qed.

(** X21.  In a state in which no room holds a socket twice and every
    session room is a non-empty string that has an entry in [rooms] (so
    it is in every state the server reaches),
    take a connection that is in the set of its session room [r], a
    room that has a broadcast.  When the handler of its [leave-room]
    runs with no other handler between its awaits, the connection is
    taken out of the set, the room shrinks by one, and every remaining
    member whose socket is open is sent one [room-update] with the new
    size; the connection that left is sent nothing. *)
Theorem leave_announces_to_rest s ws data r b :
  relay_ok s ->
  msg_type data = LeaveRoom -> ws_roomId s ws = Some r ->
  In ws (room_clients s r) ->
  getBroadcastByRoomId (storage s) r = Some b ->
  let s' := message_alone s ws data in
  ~ In ws (room_clients s' r) /\
  room_size s' r = room_size s r - 1 /\
  sent s'
  = sent s ++ deliveries (room_update (room_size s' r) (isActive b))
                (filter (fun c => is_open (ws_readyState s c))
                        (room_clients s' r)) /\
  forall m, ~ In (ws, m)
              (deliveries (room_update (room_size s' r) (isActive b))
                 (filter (fun c => is_open (ws_readyState s c))
                         (room_clients s' r))).
Proof.
  intros [Hs Hn] Ht Hr Hin Hb.
  rewrite (proj1 (handlers_run_alone s ws data)). intros s'.
  destruct (Hs ws r Hr) as [Htr Hhas].
  assert (Hs' : s' = announce (set_rooms s (left_rooms s ws r)) r).
  { apply on_message_leave; assumption. }
  assert (Hcl : room_clients s' r = set_delete (room_clients s r) ws).
  { rewrite Hs', announce_room_clients. apply room_clients_left. }
  assert (Hgone : ~ In ws (room_clients s' r)).
  { rewrite Hcl. intros H. apply set_delete_In in H. apply (proj2 H). reflexivity. }
  split; [exact Hgone|]. split; [|split].
  - unfold room_size. rewrite Hcl. apply set_delete_length; [|exact Hin].
    apply room_clients_NoDup. exact Hn.
  - unfold room_size. rewrite Hcl. rewrite Hs', announce_sent. simpl storage.
    rewrite Hb. simpl sent. rewrite recipients_everyone.
    unfold room_size. rewrite room_clients_left. reflexivity.
  - intros m H. apply In_deliveries in H. destruct H as [_ H].
    apply filter_In in H. exact (Hgone (proj1 H)).
Qed.

Lemma leave_announces_to_rest_witness :
  relay_ok two_joined /\
  msg_type (leave_room "abc123") = LeaveRoom /\
  ws_roomId two_joined 2%nat = Some "abc123" /\
  In 2%nat (room_clients two_joined "abc123") /\
  getBroadcastByRoomId (storage two_joined) "abc123"
  = Some (mkBroadcast 1 "abc123" "Morning show" true 2 "high" 0) /\
  let s' := message_alone two_joined 2%nat (leave_room "abc123") in
  ~ In 2%nat (room_clients s' "abc123") /\
  room_size s' "abc123" = room_size two_joined "abc123" - 1 /\
  sent s'
  = sent two_joined
    ++ deliveries (room_update (room_size s' "abc123") (isActive
                     (mkBroadcast 1 "abc123" "Morning show" true 2 "high" 0)))
         (filter (fun c => is_open (ws_readyState two_joined c))
                 (room_clients s' "abc123")) /\
  forall m, ~ In (2%nat, m)
              (deliveries (room_update (room_size s' "abc123") (isActive
                     (mkBroadcast 1 "abc123" "Morning show" true 2 "high" 0)))
                 (filter (fun c => is_open (ws_readyState two_joined c))
                         (room_clients s' "abc123"))).
Proof.
  assert (Hin : In 2%nat (room_clients two_joined "abc123")).
  { vm_compute. right. left. reflexivity. }
  assert (Hrel : relay_ok two_joined).
  { apply reachable_relay_ok. exact reachable_two_joined. }
  split; [exact Hrel|]. split; [reflexivity|].
  split; [reflexivity|]. split; [exact Hin|]. split; [reflexivity|].
  apply (leave_announces_to_rest two_joined 2%nat (leave_room "abc123") "abc123"
           (mkBroadcast 1 "abc123" "Morning show" true 2 "high" 0)).
  - exact Hrel.
  - reflexivity.
  - reflexivity.
  - exact Hin.
  - reflexivity.
Defined.

(** ** Joining again *)






